(** * CIA prototype (src/App.tsx): region classifier, narrative
    composer, monitoring-plan deriver, exporter and self-checks.

    A shallow embedding of the pure functions of [App.tsx] and of the
    React state they close over, with the properties of the
    specification checked against it. *)

From Stdlib Require Import NArith PeanoNat List Bool String Ascii Lia.
Import ListNotations.
Local Open Scope N_scope.
Local Open Scope list_scope.

(* ================================================================== *)
(** * JavaScript strings *)
(* ================================================================== *)

(** A JavaScript string is a sequence of UTF-16 code units.  Every
    character [App.tsx] writes is in the Basic Multilingual Plane, so a
    unit is also the code point it encodes. *)
Definition jsstring := list N.

(** An ASCII literal of the source. *)
Fixpoint js (s : string) : jsstring :=
  match s with
  | EmptyString => []
  | String a s' => N_of_ascii a :: js s'
  end.

(** A [\uXXXX] escape of the source. *)
Definition u (c : N) : jsstring := [c].

(** [a === b] on strings. *)
Fixpoint streq (a b : jsstring) : bool :=
  match a, b with
  | [], [] => true
  | x :: a', y :: b' => (x =? y) && streq a' b'
  | _, _ => false
  end.

(** [s.startsWith(p)], used to define [includes]. *)
Fixpoint startsWith (p s : jsstring) : bool :=
  match p, s with
  | [], _ => true
  | x :: p', y :: s' => (x =? y) && startsWith p' s'
  | _ :: _, [] => false
  end.

(** [s.includes(p)]. *)
Fixpoint includes (s p : jsstring) : bool :=
  startsWith p s ||
  match s with
  | [] => false
  | _ :: s' => includes s' p
  end.

(** [xs.join(sep)]. *)
Fixpoint join (sep : jsstring) (xs : list jsstring) : jsstring :=
  match xs with
  | [] => []
  | [x] => x
  | x :: rest => x ++ sep ++ join sep rest
  end.

(** [a || b] on a value that is a string or [undefined]: the empty
    string and [undefined] are falsy. *)
Definition orElse (a : option jsstring) (b : jsstring) : jsstring :=
  match a with
  | Some ((_ :: _) as s) => s
  | _ => b
  end.

(** [s.split(sep)] for a one-unit separator. *)
Fixpoint split (sep : N) (s : jsstring) : list jsstring :=
  match s with
  | [] => [[]]
  | c :: s' =>
      if c =? sep then [] :: split sep s'
      else match split sep s' with
           | [] => [[c]]
           | w :: ws => (c :: w) :: ws
           end
  end.

(** Decimal rendering of a number interpolated into a template. *)
Fixpoint digitsFuel (fuel : nat) (n : N) (acc : jsstring) : jsstring :=
  match fuel with
  | O => acc
  | S fuel' =>
      let acc' := (0x30 + n mod 10) :: acc in
      if n <? 10 then acc' else digitsFuel fuel' (n / 10) acc'
  end.

Definition numberToString (n : N) : jsstring :=
  digitsFuel (S (N.to_nat (N.log2 n))) n [].

(* ================================================================== *)
(** * The Unicode data the string methods consult *)
(* ================================================================== *)

(** [toLowerCase], [toUpperCase], [normalize("NFD")] and
    [\p{Diacritic}] are defined by the Unicode Character Database.  The
    tables below are its entries (Unicode 14) for Basic Latin, Latin-1
    Supplement, Latin Extended-A (U+0000..U+017F), Spacing Modifier
    Letters and Combining Diacritical Marks (U+02B0..U+036F) and
    Combining Diacritical Marks for Symbols (U+20D0..U+20F0).  A unit
    outside these blocks is treated as having no case mapping, no
    decomposition, combining class 0 and no Diacritic property. *)

Definition lowerCaseMap : list (N * list N) :=
  [ (0x41, [0x61]); (0x42, [0x62]); (0x43, [0x63]); (0x44, [0x64])
  ; (0x45, [0x65]); (0x46, [0x66]); (0x47, [0x67]); (0x48, [0x68])
  ; (0x49, [0x69]); (0x4A, [0x6A]); (0x4B, [0x6B]); (0x4C, [0x6C])
  ; (0x4D, [0x6D]); (0x4E, [0x6E]); (0x4F, [0x6F]); (0x50, [0x70])
  ; (0x51, [0x71]); (0x52, [0x72]); (0x53, [0x73]); (0x54, [0x74])
  ; (0x55, [0x75]); (0x56, [0x76]); (0x57, [0x77]); (0x58, [0x78])
  ; (0x59, [0x79]); (0x5A, [0x7A]); (0xC0, [0xE0]); (0xC1, [0xE1])
  ; (0xC2, [0xE2]); (0xC3, [0xE3]); (0xC4, [0xE4]); (0xC5, [0xE5])
  ; (0xC6, [0xE6]); (0xC7, [0xE7]); (0xC8, [0xE8]); (0xC9, [0xE9])
  ; (0xCA, [0xEA]); (0xCB, [0xEB]); (0xCC, [0xEC]); (0xCD, [0xED])
  ; (0xCE, [0xEE]); (0xCF, [0xEF]); (0xD0, [0xF0]); (0xD1, [0xF1])
  ; (0xD2, [0xF2]); (0xD3, [0xF3]); (0xD4, [0xF4]); (0xD5, [0xF5])
  ; (0xD6, [0xF6]); (0xD8, [0xF8]); (0xD9, [0xF9]); (0xDA, [0xFA])
  ; (0xDB, [0xFB]); (0xDC, [0xFC]); (0xDD, [0xFD]); (0xDE, [0xFE])
  ; (0x0100, [0x0101]); (0x0102, [0x0103]); (0x0104, [0x0105]); (0x0106, [0x0107])
  ; (0x0108, [0x0109]); (0x010A, [0x010B]); (0x010C, [0x010D]); (0x010E, [0x010F])
  ; (0x0110, [0x0111]); (0x0112, [0x0113]); (0x0114, [0x0115]); (0x0116, [0x0117])
  ; (0x0118, [0x0119]); (0x011A, [0x011B]); (0x011C, [0x011D]); (0x011E, [0x011F])
  ; (0x0120, [0x0121]); (0x0122, [0x0123]); (0x0124, [0x0125]); (0x0126, [0x0127])
  ; (0x0128, [0x0129]); (0x012A, [0x012B]); (0x012C, [0x012D]); (0x012E, [0x012F])
  ; (0x0130, [0x69; 0x0307]); (0x0132, [0x0133]); (0x0134, [0x0135]); (0x0136, [0x0137])
  ; (0x0139, [0x013A]); (0x013B, [0x013C]); (0x013D, [0x013E]); (0x013F, [0x0140])
  ; (0x0141, [0x0142]); (0x0143, [0x0144]); (0x0145, [0x0146]); (0x0147, [0x0148])
  ; (0x014A, [0x014B]); (0x014C, [0x014D]); (0x014E, [0x014F]); (0x0150, [0x0151])
  ; (0x0152, [0x0153]); (0x0154, [0x0155]); (0x0156, [0x0157]); (0x0158, [0x0159])
  ; (0x015A, [0x015B]); (0x015C, [0x015D]); (0x015E, [0x015F]); (0x0160, [0x0161])
  ; (0x0162, [0x0163]); (0x0164, [0x0165]); (0x0166, [0x0167]); (0x0168, [0x0169])
  ; (0x016A, [0x016B]); (0x016C, [0x016D]); (0x016E, [0x016F]); (0x0170, [0x0171])
  ; (0x0172, [0x0173]); (0x0174, [0x0175]); (0x0176, [0x0177]); (0x0178, [0xFF])
  ; (0x0179, [0x017A]); (0x017B, [0x017C]); (0x017D, [0x017E]) ].

Definition upperCaseMap : list (N * list N) :=
  [ (0x61, [0x41]); (0x62, [0x42]); (0x63, [0x43]); (0x64, [0x44])
  ; (0x65, [0x45]); (0x66, [0x46]); (0x67, [0x47]); (0x68, [0x48])
  ; (0x69, [0x49]); (0x6A, [0x4A]); (0x6B, [0x4B]); (0x6C, [0x4C])
  ; (0x6D, [0x4D]); (0x6E, [0x4E]); (0x6F, [0x4F]); (0x70, [0x50])
  ; (0x71, [0x51]); (0x72, [0x52]); (0x73, [0x53]); (0x74, [0x54])
  ; (0x75, [0x55]); (0x76, [0x56]); (0x77, [0x57]); (0x78, [0x58])
  ; (0x79, [0x59]); (0x7A, [0x5A]); (0xB5, [0x039C]); (0xDF, [0x53; 0x53])
  ; (0xE0, [0xC0]); (0xE1, [0xC1]); (0xE2, [0xC2]); (0xE3, [0xC3])
  ; (0xE4, [0xC4]); (0xE5, [0xC5]); (0xE6, [0xC6]); (0xE7, [0xC7])
  ; (0xE8, [0xC8]); (0xE9, [0xC9]); (0xEA, [0xCA]); (0xEB, [0xCB])
  ; (0xEC, [0xCC]); (0xED, [0xCD]); (0xEE, [0xCE]); (0xEF, [0xCF])
  ; (0xF0, [0xD0]); (0xF1, [0xD1]); (0xF2, [0xD2]); (0xF3, [0xD3])
  ; (0xF4, [0xD4]); (0xF5, [0xD5]); (0xF6, [0xD6]); (0xF8, [0xD8])
  ; (0xF9, [0xD9]); (0xFA, [0xDA]); (0xFB, [0xDB]); (0xFC, [0xDC])
  ; (0xFD, [0xDD]); (0xFE, [0xDE]); (0xFF, [0x0178]); (0x0101, [0x0100])
  ; (0x0103, [0x0102]); (0x0105, [0x0104]); (0x0107, [0x0106]); (0x0109, [0x0108])
  ; (0x010B, [0x010A]); (0x010D, [0x010C]); (0x010F, [0x010E]); (0x0111, [0x0110])
  ; (0x0113, [0x0112]); (0x0115, [0x0114]); (0x0117, [0x0116]); (0x0119, [0x0118])
  ; (0x011B, [0x011A]); (0x011D, [0x011C]); (0x011F, [0x011E]); (0x0121, [0x0120])
  ; (0x0123, [0x0122]); (0x0125, [0x0124]); (0x0127, [0x0126]); (0x0129, [0x0128])
  ; (0x012B, [0x012A]); (0x012D, [0x012C]); (0x012F, [0x012E]); (0x0131, [0x49])
  ; (0x0133, [0x0132]); (0x0135, [0x0134]); (0x0137, [0x0136]); (0x013A, [0x0139])
  ; (0x013C, [0x013B]); (0x013E, [0x013D]); (0x0140, [0x013F]); (0x0142, [0x0141])
  ; (0x0144, [0x0143]); (0x0146, [0x0145]); (0x0148, [0x0147]); (0x0149, [0x02BC; 0x4E])
  ; (0x014B, [0x014A]); (0x014D, [0x014C]); (0x014F, [0x014E]); (0x0151, [0x0150])
  ; (0x0153, [0x0152]); (0x0155, [0x0154]); (0x0157, [0x0156]); (0x0159, [0x0158])
  ; (0x015B, [0x015A]); (0x015D, [0x015C]); (0x015F, [0x015E]); (0x0161, [0x0160])
  ; (0x0163, [0x0162]); (0x0165, [0x0164]); (0x0167, [0x0166]); (0x0169, [0x0168])
  ; (0x016B, [0x016A]); (0x016D, [0x016C]); (0x016F, [0x016E]); (0x0171, [0x0170])
  ; (0x0173, [0x0172]); (0x0175, [0x0174]); (0x0177, [0x0176]); (0x017A, [0x0179])
  ; (0x017C, [0x017B]); (0x017E, [0x017D]); (0x017F, [0x53]); (0x0345, [0x0399]) ].

Definition canonicalDecompositionMap : list (N * list N) :=
  [ (0xC0, [0x41; 0x0300]); (0xC1, [0x41; 0x0301]); (0xC2, [0x41; 0x0302]); (0xC3, [0x41; 0x0303])
  ; (0xC4, [0x41; 0x0308]); (0xC5, [0x41; 0x030A]); (0xC7, [0x43; 0x0327]); (0xC8, [0x45; 0x0300])
  ; (0xC9, [0x45; 0x0301]); (0xCA, [0x45; 0x0302]); (0xCB, [0x45; 0x0308]); (0xCC, [0x49; 0x0300])
  ; (0xCD, [0x49; 0x0301]); (0xCE, [0x49; 0x0302]); (0xCF, [0x49; 0x0308]); (0xD1, [0x4E; 0x0303])
  ; (0xD2, [0x4F; 0x0300]); (0xD3, [0x4F; 0x0301]); (0xD4, [0x4F; 0x0302]); (0xD5, [0x4F; 0x0303])
  ; (0xD6, [0x4F; 0x0308]); (0xD9, [0x55; 0x0300]); (0xDA, [0x55; 0x0301]); (0xDB, [0x55; 0x0302])
  ; (0xDC, [0x55; 0x0308]); (0xDD, [0x59; 0x0301]); (0xE0, [0x61; 0x0300]); (0xE1, [0x61; 0x0301])
  ; (0xE2, [0x61; 0x0302]); (0xE3, [0x61; 0x0303]); (0xE4, [0x61; 0x0308]); (0xE5, [0x61; 0x030A])
  ; (0xE7, [0x63; 0x0327]); (0xE8, [0x65; 0x0300]); (0xE9, [0x65; 0x0301]); (0xEA, [0x65; 0x0302])
  ; (0xEB, [0x65; 0x0308]); (0xEC, [0x69; 0x0300]); (0xED, [0x69; 0x0301]); (0xEE, [0x69; 0x0302])
  ; (0xEF, [0x69; 0x0308]); (0xF1, [0x6E; 0x0303]); (0xF2, [0x6F; 0x0300]); (0xF3, [0x6F; 0x0301])
  ; (0xF4, [0x6F; 0x0302]); (0xF5, [0x6F; 0x0303]); (0xF6, [0x6F; 0x0308]); (0xF9, [0x75; 0x0300])
  ; (0xFA, [0x75; 0x0301]); (0xFB, [0x75; 0x0302]); (0xFC, [0x75; 0x0308]); (0xFD, [0x79; 0x0301])
  ; (0xFF, [0x79; 0x0308]); (0x0100, [0x41; 0x0304]); (0x0101, [0x61; 0x0304]); (0x0102, [0x41; 0x0306])
  ; (0x0103, [0x61; 0x0306]); (0x0104, [0x41; 0x0328]); (0x0105, [0x61; 0x0328]); (0x0106, [0x43; 0x0301])
  ; (0x0107, [0x63; 0x0301]); (0x0108, [0x43; 0x0302]); (0x0109, [0x63; 0x0302]); (0x010A, [0x43; 0x0307])
  ; (0x010B, [0x63; 0x0307]); (0x010C, [0x43; 0x030C]); (0x010D, [0x63; 0x030C]); (0x010E, [0x44; 0x030C])
  ; (0x010F, [0x64; 0x030C]); (0x0112, [0x45; 0x0304]); (0x0113, [0x65; 0x0304]); (0x0114, [0x45; 0x0306])
  ; (0x0115, [0x65; 0x0306]); (0x0116, [0x45; 0x0307]); (0x0117, [0x65; 0x0307]); (0x0118, [0x45; 0x0328])
  ; (0x0119, [0x65; 0x0328]); (0x011A, [0x45; 0x030C]); (0x011B, [0x65; 0x030C]); (0x011C, [0x47; 0x0302])
  ; (0x011D, [0x67; 0x0302]); (0x011E, [0x47; 0x0306]); (0x011F, [0x67; 0x0306]); (0x0120, [0x47; 0x0307])
  ; (0x0121, [0x67; 0x0307]); (0x0122, [0x47; 0x0327]); (0x0123, [0x67; 0x0327]); (0x0124, [0x48; 0x0302])
  ; (0x0125, [0x68; 0x0302]); (0x0128, [0x49; 0x0303]); (0x0129, [0x69; 0x0303]); (0x012A, [0x49; 0x0304])
  ; (0x012B, [0x69; 0x0304]); (0x012C, [0x49; 0x0306]); (0x012D, [0x69; 0x0306]); (0x012E, [0x49; 0x0328])
  ; (0x012F, [0x69; 0x0328]); (0x0130, [0x49; 0x0307]); (0x0134, [0x4A; 0x0302]); (0x0135, [0x6A; 0x0302])
  ; (0x0136, [0x4B; 0x0327]); (0x0137, [0x6B; 0x0327]); (0x0139, [0x4C; 0x0301]); (0x013A, [0x6C; 0x0301])
  ; (0x013B, [0x4C; 0x0327]); (0x013C, [0x6C; 0x0327]); (0x013D, [0x4C; 0x030C]); (0x013E, [0x6C; 0x030C])
  ; (0x0143, [0x4E; 0x0301]); (0x0144, [0x6E; 0x0301]); (0x0145, [0x4E; 0x0327]); (0x0146, [0x6E; 0x0327])
  ; (0x0147, [0x4E; 0x030C]); (0x0148, [0x6E; 0x030C]); (0x014C, [0x4F; 0x0304]); (0x014D, [0x6F; 0x0304])
  ; (0x014E, [0x4F; 0x0306]); (0x014F, [0x6F; 0x0306]); (0x0150, [0x4F; 0x030B]); (0x0151, [0x6F; 0x030B])
  ; (0x0154, [0x52; 0x0301]); (0x0155, [0x72; 0x0301]); (0x0156, [0x52; 0x0327]); (0x0157, [0x72; 0x0327])
  ; (0x0158, [0x52; 0x030C]); (0x0159, [0x72; 0x030C]); (0x015A, [0x53; 0x0301]); (0x015B, [0x73; 0x0301])
  ; (0x015C, [0x53; 0x0302]); (0x015D, [0x73; 0x0302]); (0x015E, [0x53; 0x0327]); (0x015F, [0x73; 0x0327])
  ; (0x0160, [0x53; 0x030C]); (0x0161, [0x73; 0x030C]); (0x0162, [0x54; 0x0327]); (0x0163, [0x74; 0x0327])
  ; (0x0164, [0x54; 0x030C]); (0x0165, [0x74; 0x030C]); (0x0168, [0x55; 0x0303]); (0x0169, [0x75; 0x0303])
  ; (0x016A, [0x55; 0x0304]); (0x016B, [0x75; 0x0304]); (0x016C, [0x55; 0x0306]); (0x016D, [0x75; 0x0306])
  ; (0x016E, [0x55; 0x030A]); (0x016F, [0x75; 0x030A]); (0x0170, [0x55; 0x030B]); (0x0171, [0x75; 0x030B])
  ; (0x0172, [0x55; 0x0328]); (0x0173, [0x75; 0x0328]); (0x0174, [0x57; 0x0302]); (0x0175, [0x77; 0x0302])
  ; (0x0176, [0x59; 0x0302]); (0x0177, [0x79; 0x0302]); (0x0178, [0x59; 0x0308]); (0x0179, [0x5A; 0x0301])
  ; (0x017A, [0x7A; 0x0301]); (0x017B, [0x5A; 0x0307]); (0x017C, [0x7A; 0x0307]); (0x017D, [0x5A; 0x030C])
  ; (0x017E, [0x7A; 0x030C]); (0x0340, [0x0300]); (0x0341, [0x0301]); (0x0343, [0x0313])
  ; (0x0344, [0x0308; 0x0301]) ].

Definition combiningClassRanges : list (N * N * N) :=
  [ (0x0300, 0x0314, 230); (0x0315, 0x0315, 232); (0x0316, 0x0319, 220); (0x031A, 0x031A, 232)
  ; (0x031B, 0x031B, 216); (0x031C, 0x0320, 220); (0x0321, 0x0322, 202); (0x0323, 0x0326, 220)
  ; (0x0327, 0x0328, 202); (0x0329, 0x0333, 220); (0x0334, 0x0338, 1); (0x0339, 0x033C, 220)
  ; (0x033D, 0x0344, 230); (0x0345, 0x0345, 240); (0x0346, 0x0346, 230); (0x0347, 0x0349, 220)
  ; (0x034A, 0x034C, 230); (0x034D, 0x034E, 220); (0x0350, 0x0352, 230); (0x0353, 0x0356, 220)
  ; (0x0357, 0x0357, 230); (0x0358, 0x0358, 232); (0x0359, 0x035A, 220); (0x035B, 0x035B, 230)
  ; (0x035C, 0x035C, 233); (0x035D, 0x035E, 234); (0x035F, 0x035F, 233); (0x0360, 0x0361, 234)
  ; (0x0362, 0x0362, 233); (0x0363, 0x036F, 230); (0x20D0, 0x20D1, 230); (0x20D2, 0x20D3, 1)
  ; (0x20D4, 0x20D7, 230); (0x20D8, 0x20DA, 1); (0x20DB, 0x20DC, 230); (0x20E1, 0x20E1, 230)
  ; (0x20E5, 0x20E6, 1); (0x20E7, 0x20E7, 230); (0x20E8, 0x20E8, 220); (0x20E9, 0x20E9, 230)
  ; (0x20EA, 0x20EB, 1); (0x20EC, 0x20EF, 220); (0x20F0, 0x20F0, 230) ].

Definition diacriticRanges : list (N * N) :=
  [ (0x5E, 0x5E); (0x60, 0x60); (0xA8, 0xA8); (0xAF, 0xAF); (0xB4, 0xB4)
  ; (0xB7, 0xB8); (0x02B0, 0x034E); (0x0350, 0x0357); (0x035D, 0x0362) ].

Definition assoc {A : Type} (c : N) (t : list (N * A)) : option A :=
  match find (fun p => fst p =? c) t with
  | Some p => Some (snd p)
  | None => None
  end.

Definition mapChar (t : list (N * list N)) (c : N) : list N :=
  match assoc c t with
  | Some v => v
  | None => [c]
  end.

(** [s.toLowerCase()] and [s.toUpperCase()]. *)
Definition toLowerCase (s : jsstring) : jsstring := flat_map (mapChar lowerCaseMap) s.
Definition toUpperCase (s : jsstring) : jsstring := flat_map (mapChar upperCaseMap) s.

(** Canonical_Combining_Class. *)
Definition combiningClass (c : N) : N :=
  match find (fun r => (fst (fst r) <=? c) && (c <=? snd (fst r))) combiningClassRanges with
  | Some r => snd r
  | None => 0
  end.

(** [\p{Diacritic}]. *)
Definition isDiacritic (c : N) : bool :=
  existsb (fun r => (fst r <=? c) && (c <=? snd r)) diacriticRanges.

(** Canonical ordering: within every maximal run of non-starters the
    marks are sorted by combining class, stably. *)
Fixpoint insertMark (c : N) (s : jsstring) : jsstring :=
  match s with
  | [] => [c]
  | d :: s' =>
      if combiningClass d =? 0 then c :: s
      else if combiningClass c <=? combiningClass d then c :: s
      else d :: insertMark c s'
  end.

Fixpoint canonicalOrder (s : jsstring) : jsstring :=
  match s with
  | [] => []
  | c :: s' =>
      if combiningClass c =? 0 then c :: canonicalOrder s'
      else insertMark c (canonicalOrder s')
  end.

(** [s.normalize("NFD")]: full canonical decomposition, then canonical
    ordering. *)
Definition normalizeNFD (s : jsstring) : jsstring :=
  canonicalOrder (flat_map (mapChar canonicalDecompositionMap) s).

(** [s.replace(/\p{Diacritic}/gu, "")]. *)
Definition stripDiacritics (s : jsstring) : jsstring :=
  filter (fun c => negb (isDiacritic c)) s.

(* ================================================================== *)
(** * Regular expressions *)
(* ================================================================== *)

(** The fragment of the ECMAScript pattern syntax that [App.tsx] uses:
    the empty pattern, pattern characters, [\s], [\b], concatenation,
    alternation, [?] and [\s*].  No pattern of the dictionaries carries
    a flag, so [test] keeps no [lastIndex] between calls. *)
Inductive regex : Type :=
| Eps
| Chr (c : N)
| Space
| WordBoundary
| Seq (r1 r2 : regex)
| Alt (r1 r2 : regex)
| Opt (r : regex)
| SpaceStar.

(** [\s]: WhiteSpace and LineTerminator. *)
Definition isSpace (c : N) : bool :=
  existsb (N.eqb c)
    [0x09; 0x0A; 0x0B; 0x0C; 0x0D; 0x20; 0xA0; 0x1680; 0x2028; 0x2029;
     0x202F; 0x205F; 0x3000; 0xFEFF]
  || ((0x2000 <=? c) && (c <=? 0x200A)).

(** The word characters of [\b]: [A-Za-z0-9_]. *)
Definition isWordChar (c : N) : bool :=
  ((0x61 <=? c) && (c <=? 0x7A)) || ((0x41 <=? c) && (c <=? 0x5A))
  || ((0x30 <=? c) && (c <=? 0x39)) || (c =? 0x5F).

Definition isWordCharAt (c : option N) : bool :=
  match c with
  | Some c => isWordChar c
  | None => false
  end.

(** A matcher state: the unit before the current position, if any,
    and the input from the current position on. *)
Definition position : Type := option N * jsstring.

Fixpoint spaceStar (prev : option N) (s : jsstring) : list position :=
  (prev, s) ::
  match s with
  | c :: s' => if isSpace c then spaceStar (Some c) s' else []
  | [] => []
  end.

(** All the positions at which a match of [r] that starts at
    [(prev, s)] can end. *)
Fixpoint matchAt (r : regex) (prev : option N) (s : jsstring) : list position :=
  match r with
  | Eps => [(prev, s)]
  | Chr c =>
      match s with
      | d :: s' => if c =? d then [(Some d, s')] else []
      | [] => []
      end
  | Space =>
      match s with
      | d :: s' => if isSpace d then [(Some d, s')] else []
      | [] => []
      end
  | WordBoundary =>
      if xorb (isWordCharAt prev) (isWordCharAt (hd_error s)) then [(prev, s)] else []
  | Seq r1 r2 => flat_map (fun p => matchAt r2 (fst p) (snd p)) (matchAt r1 prev s)
  | Alt r1 r2 => matchAt r1 prev s ++ matchAt r2 prev s
  | Opt r1 => matchAt r1 prev s ++ [(prev, s)]
  | SpaceStar => spaceStar prev s
  end.

Definition matchesAt (r : regex) (prev : option N) (s : jsstring) : bool :=
  match matchAt r prev s with
  | [] => false
  | _ :: _ => true
  end.

Fixpoint testFrom (r : regex) (prev : option N) (s : jsstring) : bool :=
  matchesAt r prev s ||
  match s with
  | c :: s' => testFrom r (Some c) s'
  | [] => false
  end.

(** [r.test(s)]: some position of [s] starts a match. *)
Definition test (r : regex) (s : jsstring) : bool := testFrom r None s.

(** Pattern text: a run of pattern characters. *)
Fixpoint lit (s : jsstring) : regex :=
  match s with
  | [] => Eps
  | [c] => Chr c
  | c :: s' => Seq (Chr c) (lit s')
  end.

(** [\bw\b]. *)
Definition word (w : string) : regex := Seq WordBoundary (Seq (lit (js w)) WordBoundary).

(** [r1|r2|...]. *)
Fixpoint alts (r : regex) (rs : list regex) : regex :=
  match rs with
  | [] => r
  | r' :: rs' => Alt r (alts r' rs')
  end.

(* ================================================================== *)
(** * Text normalizer and region classifier *)
(* ================================================================== *)

Record Region : Type := { name : jsstring; patterns : list regex }.

Definition HCC_ICMPS : list Region :=
  [ {| name := js "Peacocke ICMP"; patterns := [alts (word "peacocke") [word "peacocks"]] |}
  ; {| name := js "Rotokauri ICMP"; patterns := [word "rotokauri"] |}
  ; {| name := js "Te Rapa ICMP";
       patterns := [alts (Seq (lit (js "te")) (Seq (Opt Space) (lit (js "rapa"))))
                         [word "pukete"; word "northgate"]] |}
  ; {| name := js "Rototuna ICMP";
       patterns := [alts (word "rototuna") [word "flagstaff"; word "chartwell"]] |}
  ; {| name := js "Ruakura ICMP";
       patterns := [alts (word "ruakura") [word "hillcrest"; word "silverdale"; word "university"]] |}
  ; {| name := js "Waitawhiriwhiri ICMP";
       patterns := [alts (lit (js "waitawhiriwhiri"))
                         [lit (js "beerescourt");
                          Seq (lit (js "forest")) (Seq SpaceStar (Seq (lit (js "lake")) (Opt (Chr 0x73))));
                          lit (js "frankton"); lit (js "clarkin"); lit (js "bryant")]] |}
  ; {| name := js "Mangakotukutuku ICMP";
       patterns := [alts (lit (js "mangakotukutuku"))
                         [lit (js "glenview"); lit (js "melville"); lit (js "fitzroy");
                          lit (js "bader"); lit (js "kahikatea"); lit (js "ohaupo")]] |} ].

Definition WDC_ICMPS : list Region :=
  [ {| name := js "Ng" ++ u 0x0101 ++ js "ruaw" ++ u 0x0101 ++ js "hia ICMP";
       patterns := [alts (lit (js "ngaruawahia"))
                         [lit (js "ng" ++ u 0x0101 ++ js "ruaw" ++ u 0x0101 ++ js "hia");
                          lit (js "hopuhopu")]] |}
  ; {| name := js "Huntly ICMP"; patterns := [alts (word "huntly") [word "rahuipokeka"]] |}
  ; {| name := js "Te Kauwhata ICMP";
       patterns := [alts (Seq (lit (js "te")) (Seq SpaceStar (lit (js "kauwhata"))))
                         [lit (js "waerenga"); lit (js "meremere")]] |} ].

(** [normalizeForMatch(input)].  The parameter is declared [string];
    [input || ""] also accepts [undefined], which is [None] here. *)
Definition normalizeForMatch (input : option jsstring) : jsstring :=
  stripDiacritics (normalizeNFD (toLowerCase (orElse input []))).

Definition HamiltonCityCouncil : jsstring := js "Hamilton City Council".
Definition WaikatoDistrictCouncil : jsstring := js "Waikato District Council".

Definition hamiltonFallback : jsstring := js "Hamilton City ICMP (area to confirm)".
Definition waikatoFallback : jsstring := js "Waikato District ICMP (area to confirm)".

(** [(area) => area.patterns.some((p) => p.test(loc))]. *)
Definition areaMatches (loc : jsstring) (area : Region) : bool :=
  existsb (fun p => test p loc) (patterns area).

(** The dictionary a council value selects. *)
Definition dictionaryOf (councilName : jsstring) : list Region :=
  if streq councilName HamiltonCityCouncil then HCC_ICMPS else WDC_ICMPS.

Definition inferICMP (location : option jsstring) (councilName : jsstring) : jsstring :=
  let loc := normalizeForMatch location in
  if streq councilName HamiltonCityCouncil then
    match find (areaMatches loc) HCC_ICMPS with
    | Some hit => name hit
    | None => hamiltonFallback
    end
  else
    match find (areaMatches loc) WDC_ICMPS with
    | Some hit => name hit
    | None => waikatoFallback
    end.

Definition inferICMPMatches (location : option jsstring) (councilName : jsstring)
  : list jsstring :=
  let loc := normalizeForMatch location in
  let dict := if streq councilName HamiltonCityCouncil then HCC_ICMPS else WDC_ICMPS in
  let matches := map name (filter (areaMatches loc) dict) in
  match matches with
  | [] => [if streq councilName HamiltonCityCouncil then hamiltonFallback else waikatoFallback]
  | _ :: _ => matches
  end.

(* ================================================================== *)
(** * Session state and the disambiguation handlers *)
(* ================================================================== *)

(** The [useState] cells of [CIAPrototype] that the classifier, the
    composer and the deriver read or write. *)
Record Figure : Type := {
  id : jsstring;
  caption : jsstring;
  dataUrl : jsstring;
  selected : bool
}.

Record Session : Type := {
  council : jsstring;
  includeHPMO : bool;
  projectName : jsstring;
  projectLocation : jsstring;
  inferredICMP : jsstring;
  icmpOptions : list jsstring;
  showIcmpModal : bool;
  icmpTemp : jsstring;
  figureGallery : list Figure
}.

Definition notSet : jsstring := js "(not set)".

Definition placeholderFigure (i : nat) : Figure :=
  {| id := js "fig-" ++ numberToString (N.of_nat i + 1);
     caption := js "Figure " ++ numberToString (N.of_nat i + 1) ++ js ": Placeholder diagram/map";
     dataUrl := js "data:image/png;base64,iVBORw0KGgoAAAANSUhEUgAAAAoAAAAKCAYAAACNMs+9AAAAFElEQVQYV2NkYGBgYGBg+M9ABQAKCAIBz1b5AwAAAABJRU5ErkJggg==";
     selected := Nat.ltb i 3 |}.

Definition initialSession : Session :=
  {| council := HamiltonCityCouncil;
     includeHPMO := true;
     projectName := js "Te Awa Industrial Upgrade - Stage 2";
     projectLocation := [];
     inferredICMP := notSet;
     icmpOptions := [];
     showIcmpModal := false;
     icmpTemp := notSet;
     figureGallery := map placeholderFigure (seq 0 8) |}.

Definition setCouncil (v : jsstring) (st : Session) : Session :=
  {| council := v; includeHPMO := includeHPMO st;
     projectName := projectName st; projectLocation := projectLocation st;
     inferredICMP := inferredICMP st; icmpOptions := icmpOptions st;
     showIcmpModal := showIcmpModal st; icmpTemp := icmpTemp st;
     figureGallery := figureGallery st |}.

Definition setIncludeHPMO (v : bool) (st : Session) : Session :=
  {| council := council st; includeHPMO := v;
     projectName := projectName st; projectLocation := projectLocation st;
     inferredICMP := inferredICMP st; icmpOptions := icmpOptions st;
     showIcmpModal := showIcmpModal st; icmpTemp := icmpTemp st;
     figureGallery := figureGallery st |}.

Definition setProjectLocation (v : jsstring) (st : Session) : Session :=
  {| council := council st; includeHPMO := includeHPMO st;
     projectName := projectName st; projectLocation := v;
     inferredICMP := inferredICMP st; icmpOptions := icmpOptions st;
     showIcmpModal := showIcmpModal st; icmpTemp := icmpTemp st;
     figureGallery := figureGallery st |}.

(** The [onChange] of the council selector. *)
Definition handleCouncilChange (val : jsstring) (st : Session) : Session :=
  setIncludeHPMO (streq val HamiltonCityCouncil) (setCouncil val st).

Definition setInferredICMP (v : jsstring) (st : Session) : Session :=
  {| council := council st; includeHPMO := includeHPMO st;
     projectName := projectName st; projectLocation := projectLocation st;
     inferredICMP := v; icmpOptions := icmpOptions st;
     showIcmpModal := showIcmpModal st; icmpTemp := icmpTemp st;
     figureGallery := figureGallery st |}.

Definition setIcmpOptions (v : list jsstring) (st : Session) : Session :=
  {| council := council st; includeHPMO := includeHPMO st;
     projectName := projectName st; projectLocation := projectLocation st;
     inferredICMP := inferredICMP st; icmpOptions := v;
     showIcmpModal := showIcmpModal st; icmpTemp := icmpTemp st;
     figureGallery := figureGallery st |}.

Definition setShowIcmpModal (v : bool) (st : Session) : Session :=
  {| council := council st; includeHPMO := includeHPMO st;
     projectName := projectName st; projectLocation := projectLocation st;
     inferredICMP := inferredICMP st; icmpOptions := icmpOptions st;
     showIcmpModal := v; icmpTemp := icmpTemp st;
     figureGallery := figureGallery st |}.

Definition setIcmpTemp (v : jsstring) (st : Session) : Session :=
  {| council := council st; includeHPMO := includeHPMO st;
     projectName := projectName st; projectLocation := projectLocation st;
     inferredICMP := inferredICMP st; icmpOptions := icmpOptions st;
     showIcmpModal := showIcmpModal st; icmpTemp := v;
     figureGallery := figureGallery st |}.

Definition councilFallback (councilName : jsstring) : jsstring :=
  if streq councilName HamiltonCityCouncil then hamiltonFallback else waikatoFallback.

(** [handleAutoDetectICMP()]. *)
Definition handleAutoDetectICMP (st : Session) : Session :=
  let matches := inferICMPMatches (Some (projectLocation st)) (council st) in
  if Nat.leb (List.length matches) 1 then
    setShowIcmpModal false
      (setIcmpOptions []
         (setInferredICMP (orElse (hd_error matches) (councilFallback (council st))) st))
  else
    setShowIcmpModal true
      (setIcmpTemp (orElse (hd_error matches) notSet)
         (setIcmpOptions matches st)).

(** The modal's "Use selected ICMP" button. *)
Definition confirmICMP (st : Session) : Session :=
  setIcmpOptions [] (setShowIcmpModal false (setInferredICMP (icmpTemp st) st)).

(** The modal's "Cancel" button and its backdrop. *)
Definition cancelICMP (st : Session) : Session :=
  setIcmpOptions [] (setShowIcmpModal false st).


(* ================================================================== *)
(** * Finding repository *)
(* ================================================================== *)

Record TriggerSpec : Type := {
  metrics : list jsstring;
  baselines : jsstring;
  thresholds : list jsstring;
  actions : list jsstring;
  reporting : jsstring
}.

Record Effects : Type := {
  cultural : list jsstring;
  social : list jsstring;
  environmental : list jsstring;
  spiritual : list jsstring
}.

Record Finding : Type := {
  category : jsstring;
  issue : jsstring;
  effects : Effects;
  mitigations : list jsstring;
  recommendations : list jsstring;
  triggers : TriggerSpec;
  policyLinks : list jsstring;
  consentClauses : list jsstring
}.

Definition nl : jsstring := [0x0A].

Definition sampleFindings : list Finding :=
  [
  {| category := js "wai";
     issue := js "Potential degradation of mauri and clarity in tributary due to earthworks sediment discharges";
     effects :=
       {| cultural := [ js "Mauri of the awa diminished; disruption to mahinga kai practices"
                      ; js "Reduced ability for wh" ++ u 0x0101 ++ js "nau to gather kai safely" ];
          social := [ js "Community concern over river health; trust impacts" ];
          environmental := [ js "Elevated NTU and TSS; smothering of habitat; fish passage stress" ];
          spiritual := [ js "Tapu/noa balance affected where discharges occur near w" ++ u 0x0101 ++ js "hi tapu" ] |};
     mitigations := [ js "Install staged sediment retention ponds sized to Hamilton District Plan GD05 guidance; monitor turbidity (NTU) daily."
       ; js "No instream works during tuna migration periods; implement 25 m riparian buffer in sensitive reaches." ];
     recommendations := [ js "Co-design mahinga kai monitoring with mana whenua; quarterly w" ++ u 0x0101 ++ js "nanga to review data and adaptive actions."
       ; js "Embed Te Ture Whaimana vision-objectives as assessment criteria in contractor EMS (Environmental Management System)." ];
     triggers :=
       {| metrics := [ js "NTU (turbidity)"
          ; js "TSS (mg/L)"
          ; js "E. coli (cfu/100 mL)"
          ; js "Visual clarity (m)"
          ; js "Mahinga kai presence/abundance (tuna/" ++ u 0x012B ++ js "nanga)" ];
          baselines := js "Establish 4-week pre-works baseline for NTU/clarity and cultural health index (CHI) with mana whenua.";
          thresholds := [ js "NTU > baseline + 25% for >24h"
          ; js "Clarity < 1.6 m during fine weather"
          ; js "Any exceedance at mahinga kai sites" ];
          actions := [ js "Stop high-risk works; inspect ESCP; deploy additional treatment within 24h"
          ; js "Notify mana whenua and Council within 1 working day"
          ; js "Hold hui within 5 working days to agree corrective actions" ];
          reporting := js "Quarterly report + dashboard; immediate incident reports when thresholds tripped." |};
     policyLinks := [ js "Te Ture Whaimana - Vision and Objective 1 (health and wellbeing of the Waikato River)"
       ; js "Tai Tumu, Tai Pari, Tai Ao EMP - Wai: water quality, mahinga kai protection"
       ; js "Hamilton District Plan - 25.14 Infrastructure; erosion/sediment control standards" ];
     consentClauses := [ js "Prior to works, the consent holder must submit an Erosion and Sediment Control Plan (ESCP) prepared by a suitably qualified person, demonstrating compliance with GD05 and avoiding instream works during identified migration windows for tuna/" ++ u 0x012B ++ js "nanga."
       ; js "Establish a Mauri Monitoring Programme co-developed with mana whenua that sets baseline and trigger levels (including NTU and clarity), provides for mahinga kai assessments, and requires adaptive responses within 10 working days if triggers are exceeded." ] |};
  {| category := js "whenua";
     issue := js "Loss of topsoil and disturbance of known urup" ++ u 0x0101 ++ js " risk area within 200 m of works";
     effects :=
       {| cultural := [ js "Risk to w" ++ u 0x0101 ++ js "hi tapu/w" ++ u 0x0101 ++ js "hi t" ++ u 0x016B ++ js "puna; mamae if disturbance occurs" ];
          social := [ js "Project delays and conflict if discovery process unclear" ];
          environmental := [ js "Erosion risk; reduced soil productivity if not salvaged" ];
          spiritual := [ js "Tapu breach potential requiring tikanga responses" ] |};
     mitigations := [ js "Cultural discovery protocol with immediate stop-work and notification process."
       ; js "Topsoil salvage and reuse plan to support revegetation with taonga species." ];
     recommendations := [ js "Archaeological Authority (HNZPT) pre-works; mana whenua monitors present during initial ground-breaking."
       ; js "GIS mapping layer for w" ++ u 0x0101 ++ js "hi tapu/w" ++ u 0x0101 ++ js "hi t" ++ u 0x016B ++ js "puna integrated into contractor inductions." ];
     triggers :=
       {| metrics := [ js "Protocol drills completed"
          ; js "Monitor hours on-site"
          ; js "Incidents recorded" ];
          baselines := js "Zero harm baseline (no unauthorised ground disturbance).";
          thresholds := [ js "Any suspected k" ++ u 0x014D ++ js "iwi or taonga triggers stop-work" ];
          actions := [ js "Immediate stop-work; protect area; notify mana whenua, HNZPT, Police (if k" ++ u 0x014D ++ js "iwi)"
          ; js "Undertake tikanga-led process; update methodology before resuming" ];
          reporting := js "Incident log shared within 24h; monthly summary including training and inductions." |};
     policyLinks := [ js "Tai Tumu, Tai Pari, Tai Ao EMP - Whenua: protection of w" ++ u 0x0101 ++ js "hi tapu, soils, and landscapes"
       ; js "Hamilton/Waikato District Plan - Heritage and Archaeology provisions" ];
     consentClauses := [ js "Implement a Cultural Discovery Protocol approved by mana whenua prior to commencement; all staff to be inducted and protocol kept onsite at all times."
       ; js "Require mana whenua cultural monitors to be present during initial stripping; consent holder to fund participation and reporting." ] |};
  {| category := js "whakapapa";
     issue := js "Fragmentation of ecological corridors reducing connectivity for taonga species";
     effects :=
       {| cultural := [ js "Disruption to whakapapa relationships among species and habitats" ];
          social := [ js "Loss of local amenity and learning opportunities for rangatahi" ];
          environmental := [ js "Barrier to fish passage; edge effects increase predators/weeds" ];
          spiritual := [ js "Diminished wairua of place if connections severed" ] |};
     mitigations := [ js "Design wildlife-friendly culverts and fish passage; stage works to maintain connectivity." ];
     recommendations := [ js "Planting palette guided by whakapapa of place (locally-sourced eco-sourced taonga species); 3-year establishment and pest control." ];
     triggers :=
       {| metrics := [ js "Fish passage scores (NIWA tool)"
          ; js "Survival of plantings (%)"
          ; js "Predator trap-catch" ];
          baselines := js "Pre-works fish passage survey and habitat mapping.";
          thresholds := [ js "Fish passage score < baseline"
          ; js "Plant survival <85%" ];
          actions := [ js "Remediate culverts; replace failed plantings; intensify pest control" ];
          reporting := js "Six-monthly ecological report + w" ++ u 0x0101 ++ js "nanga walkthrough." |};
     policyLinks := [ js "Te Ture Whaimana - enhancement of ecological integrity"
       ; js "Tai Tumu, Tai Pari, Tai Ao EMP - Whakapapa: intergenerational stewardship" ];
     consentClauses := [ js "Fish passage to meet NIWA fish passage assessment tool thresholds; as-built certification prior to operation." ] |};
  {| category := js "wh" ++ u 0x0101 ++ js "nau";
     issue := js "Construction traffic and noise affecting marae access, tangihanga, and daily wh" ++ u 0x0101 ++ js "nau life";
     effects :=
       {| cultural := [ js "Disruption to marae protocols and ability to host kaupapa including tangihanga" ];
          social := [ js "Increased stress; reduced community cohesion if engagement is weak" ];
          environmental := [ js "Dust and vibration affecting nearby sensitive receivers" ];
          spiritual := [ js "Disturbance to wairua during significant wh" ++ u 0x0101 ++ js "nau events" ] |};
     mitigations := [ js "Traffic Management Plan (TMP) with marae input; avoid peak event times"
       ; js "Construction Noise and Vibration Management Plan; onsite dust suppression" ];
     recommendations := [ js "Co-design communications plan with mana whenua; 2-week lookahead notices"
       ; js "Identify protected access windows around known marae events/tangihanga" ];
     triggers :=
       {| metrics := [ js "LAeq dB"
          ; js "Number of complaints"
          ; js "Access block incidents" ];
          baselines := js "Pre-works ambient noise survey and access mapping with wh" ++ u 0x0101 ++ js "nau.";
          thresholds := [ js ">2 substantiated access incidents/month"
          ; js "Noise exceeds plan limits" ];
          actions := [ js "Adjust work hours/routing; deploy additional acoustic barriers"
          ; js "H" ++ u 0x016B ++ js "tu w" ++ u 0x0101 ++ js "nanga within 5 working days to agree changes" ];
          reporting := js "Monthly community report; real-time hotline with log shared to mana whenua." |};
     policyLinks := [ js "Tai Tumu, Tai Pari, Tai Ao EMP - Wh" ++ u 0x0101 ++ js "nau and participation"
       ; js "Applicable District Plan - Noise/traffic rules and engagement requirements" ];
     consentClauses := [ js "Prepare and implement a TMP and Communications Plan co-designed with mana whenua, including protected access windows for marae and mechanisms for event-time pauses."
       ; js "Maintain a dedicated contact line and incident log accessible to mana whenua; implement corrective actions within 5 working days." ] |};
  {| category := js "mauri";
     issue := js "Residual effects risk during storm events despite controls";
     effects :=
       {| cultural := [ js "Perceived degradation of mauri during heavy rain events" ];
          social := [ js "Community anxiety following spill/overflow rumours" ];
          environmental := [ js "Pulse loads of sediments and contaminants" ];
          spiritual := [ js "Loss of balance (tapu/noa) when incidents occur" ] |};
     mitigations := [ js "Adaptive management triggers linked to rainfall intensity thresholds"
       ; js "Contingency spill kits and overflow prevention measures" ];
     recommendations := [ js "Integrate mauri indicators in dashboard with traffic-light triggers"
       ; js "Run post-event w" ++ u 0x0101 ++ js "nanga to agree remediation and learning" ];
     triggers :=
       {| metrics := [ js "Rainfall (mm/hr)"
          ; js "NTU spikes"
          ; js "Incident count" ];
          baselines := js "Event-based baseline using first-flush data";
          thresholds := [ js ">20 mm/hr with NTU > baseline + 40%"
          ; js "Any overflow" ];
          actions := [ js "Suspend exposed works; stand-up response team; notify within 24h" ];
          reporting := js "Event summary within 5 days; quarterly trend analysis with mana whenua." |};
     policyLinks := [ js "Te Ture Whaimana - maintaining and enhancing the mauri of the Waikato River"
       ; js "Tai Tumu, Tai Pari, Tai Ao EMP - Mauri" ];
     consentClauses := [ js "Adopt an Adaptive Management Plan with rainfall-linked triggers and defined corrective actions; co-develop with mana whenua and submit prior to works." ] |};
  {| category := js "wairua";
     issue := js "Loss of sense of place at w" ++ u 0x0101 ++ js "hi t" ++ u 0x016B ++ js "puna vista and culturally sensitive viewshafts";
     effects :=
       {| cultural := [ js "Erosion of identity where viewshafts are compromised" ];
          social := [ js "Reduced pride and connection to place" ];
          environmental := [ js "Visual amenity effects; vegetation structure changes" ];
          spiritual := [ js "Disruption to wairua associated with the site" ] |};
     mitigations := [ js "Cultural design review panel with mana whenua; protect key sightlines" ];
     recommendations := [ js "Develop a viewshaft protection plan and culturally anchored design palette" ];
     triggers :=
       {| metrics := [ js "Design gate approvals"
          ; js "Non-conformance count" ];
          baselines := js "Pre-works photo-simulations agreed with mana whenua";
          thresholds := [ js "Any deviation from agreed sightline envelope" ];
          actions := [ js "Iterate design to restore sightlines; additional planting/screening" ];
          reporting := js "Design review minutes; pre/post photo-comparisons filed with CIA updates." |};
     policyLinks := [ js "Tai Tumu, Tai Pari, Tai Ao EMP - Wairua and landscapes"
       ; js "District Plan - Landscape/amenity objectives and policies" ];
     consentClauses := [ js "Establish a Cultural Design Review Panel with decision checkpoints at concept, developed, and pre-construction stages; implement agreed viewshaft protection measures." ] |}
  ].
(* ================================================================== *)
(** * Narrative composer *)
(* ================================================================== *)

(** [xs.map((x, i) => f(x, i))], the index counted from [i]. *)
Fixpoint mapiFrom {A B : Type} (i : N) (f : A -> N -> B) (xs : list A) : list B :=
  match xs with
  | [] => []
  | x :: xs' => f x i :: mapiFrom (i + 1) f xs'
  end.

Definition mapi {A B : Type} (f : A -> N -> B) (xs : list A) : list B := mapiFrom 0 f xs.

Definition sections : list jsstring :=
  [ js "Executive Summary"
  ; js "Background and Whakapapa"
  ; (js "Methodology (Kaupapa M" ++ u 0x0101 ++ js "ori, W" ++ u 0x0101 ++ js "nanga)")
  ; js "Categories Assessment"
  ; js "ICMP and Policy Alignment"
  ; js "Cultural Monitoring Programme"
  ; js "Consent Conditions and Next Steps" ].

Definition manaWhenuaIntro (st : Session) : jsstring :=
  (js "# CIA - Mana Whenua Narrative (Standard)" ++ nl ++ nl ++ js "## Project" ++ nl) ++ projectName st ++
  (nl ++ nl ++ js "## Whakatau" ++ u 0x0101 ++ js "k" ++ u 0x012B ++ js " / Context" ++ nl ++ js "Ko te mana o te awa me te whenua te t" ++ u 0x016B ++ u 0x0101 ++ js "papa. This kaupapa recognises our relationship to wai, whenua, and all living systems. We have assessed the technical reports and translated key matters into plain language for wh" ++ u 0x0101 ++ js "nau.").

Definition manaWhenuaCategory (f : Finding) (i : N) : jsstring :=
  (nl ++ js "### ") ++ numberToString (i + 1) ++ js ". " ++ toUpperCase (category f) ++
  (nl ++ js "**Ng" ++ u 0x0101 ++ js " take / Issue:** ") ++ issue f ++
  (nl ++ nl ++ js "**Ng" ++ u 0x0101 ++ js " whakatika / Mitigations:**" ++ nl ++ js "- ") ++ join (nl ++ js "- ") (mitigations f) ++
  (nl ++ nl ++ js "**Ng" ++ u 0x0101 ++ js " t" ++ u 0x016B ++ js "tohunga / Recommendations:**" ++ nl ++ js "- ") ++ join (nl ++ js "- ") (recommendations f) ++
  (nl ++ nl ++ js "**Monitoring triggers (plain):** ") ++ join (js ", ") (metrics (triggers f)) ++ (nl).

Definition manaWhenuaAlign (st : Session) : jsstring :=
  (nl ++ js "## Te Ture Whaimana and Tai Tumu, Tai Pari, Tai Ao alignment" ++ nl ++ js "We checked the mahi against the Vision and Objectives of Te Ture Whaimana, the Waikato-Tainui EMP (Tai Tumu, Tai Pari, Tai Ao), and the relevant District Plan. The project is connected to: **") ++ inferredICMP st ++ js "**.".

Definition manaWhenuaOutro : jsstring :=
  (nl ++ js "## Tikanga and Participation" ++ nl ++ js "- Mana whenua monitors present at ground-break." ++ nl ++ js "- W" ++ u 0x0101 ++ js "nanga-a-rohe, quarterly, to review monitoring and adapt." ++ nl ++ js "- Cultural discovery protocol: stop-work, karakia, k" ++ u 0x014D ++ js "rero, record." ++ nl ++ nl ++ js "## Ask to Council / Developer" ++ nl ++ js "Adopt the consent conditions listed and fund the co-governed monitoring programme. Partner early on planting design and mahinga kai.").

(** [buildStandardManaWhenua(findings)]; it closes over [projectName]
    and [inferredICMP]. *)
Definition buildStandardManaWhenua (st : Session) (findings : list Finding) : jsstring :=
  let cats := join (nl) (mapi manaWhenuaCategory findings) in
  join (nl ++ nl)
    [ manaWhenuaIntro st
    ; (nl ++ js "## Sections" ++ nl ++ js "- ") ++ join (nl ++ js "- ") sections
    ; (nl ++ js "## Categories - Issues, Mitigations, Recommendations" ++ nl) ++ cats
    ; manaWhenuaAlign st
    ; manaWhenuaOutro ].

Definition hamiltonPolicyPhrase : jsstring := js "He Pou Manawa Ora; Hamilton District Plan".
Definition waikatoPolicyPhrase : jsstring := js "Waikato District Plan".

Definition policyPhrase (councilName : jsstring) : jsstring :=
  if streq councilName HamiltonCityCouncil then hamiltonPolicyPhrase else waikatoPolicyPhrase.

(** The [scope] paragraph of [buildStandardCouncil]. *)
Definition councilScope (st : Session) : jsstring :=
  (js "## Assessment Scope" ++ nl ++ js "- Technical reports reviewed: EMPs, CMPs, ESCPs, ecology/archaeology/hydrology." ++ nl ++ js "- Policy instruments: Te Ture Whaimana; Tai Tumu, Tai Pari, Tai Ao EMP; ") ++
  policyPhrase (council st) ++
  (js "." ++ nl ++ js "- ICMP area: **") ++ inferredICMP st ++ js "**.".

Definition councilMatrixRow (f : Finding) (i : N) : jsstring :=
  numberToString (i + 1) ++ js ". " ++ category f ++ js " | " ++ issue f ++
  (nl ++ js "   - Mitigation: ") ++ join (js "; ") (mitigations f) ++
  (nl ++ js "   - Recommendation: ") ++ join (js "; ") (recommendations f) ++
  (nl ++ js "   - Policy: ") ++ join (js "; ") (policyLinks f).

Definition councilCondition (c : jsstring) (i : N) : jsstring :=
  numberToString (i + 1) ++ js ". " ++ c.

(** [buildStandardCouncil(findings)]; it closes over [projectName],
    [council] and [inferredICMP]. *)
Definition buildStandardCouncil (st : Session) (findings : list Finding) : jsstring :=
  let matrix := join (nl ++ nl) (mapi councilMatrixRow findings) in
  let conditions := join (nl) (mapi councilCondition (flat_map consentClauses findings)) in
  (js "# CIA - Council/Developer Narrative (Standard)" ++ nl ++ nl ++ js "## Project" ++ nl) ++ projectName st ++
  (nl ++ nl) ++ councilScope st ++
  (nl ++ nl ++ js "## Category Matrix (Issues -> Mitigation -> Recommendation -> Policy Link)" ++ nl) ++ matrix ++
  (nl ++ nl ++ js "## Proposed Consent Conditions (extract)" ++ nl) ++ conditions ++
  (nl ++ nl ++ js "## Monitoring and Adaptive Management" ++ nl ++ js "- Baseline: clarity/NTU, macroinvertebrates, mahinga kai presence." ++ nl ++ js "- Triggers: set per-site with mana whenua; actions within 10 working days." ++ nl ++ js "- Reporting: quarterly hui plus written report for Council and mana whenua.").

(** [selectedFigures]. *)
Definition selectedFigures (st : Session) : list Figure :=
  filter selected (figureGallery st).

(* ================================================================== *)
(** * Monitoring plan deriver *)
(* ================================================================== *)

Record MonitoringRow : Type := {
  phase : jsstring;
  focus : jsstring;
  role : jsstring;
  frequency : jsstring
}.

Definition baseMonitoringPlanRows : list MonitoringRow :=
  [ {| phase := js "Pre-construction";
       focus := js "Baseline mauri / mudfish / habitat surveys";
       role := (js "Attend site walkover; confirm w" ++ u 0x0101 ++ js "hi tapu avoidance; record baseline (photos/notes)");
       frequency := js "One-off" |}
  ; {| phase := js "During earthworks";
       focus := js "Sediment discharge (NTU/TSS), discovery protocol readiness";
       role := js "Onsite checks; hold stop-work if tikanga/cultural risk; verify ESCP field controls";
       frequency := js "Daily / storm-event" |}
  ; {| phase := js "Ecology";
       focus := js "Mudfish / fish passage; planting survival";
       role := js "Guide methods using tikanga; co-observe with ecologist; confirm safe handling/release";
       frequency := js "Monthly / seasonal" |}
  ; {| phase := js "Close-out";
       focus := js "Verify consent conditions delivered; cultural outcomes";
       role := js "Final site check; sign-off report to Council and mana whenua";
       frequency := js "One-off" |} ].

Definition speciesRow : MonitoringRow :=
  {| phase := js "Pre-construction";
     focus := js "Targeted mudfish presence/absence at drains/wetlands";
     role := js "Assist ecologist; apply tikanga for handling; confirm relocation plan if needed";
     frequency := js "One-off" |}.

Definition hamiltonCheckpointRow (includeHPMOFlag : bool) : MonitoringRow :=
  {| phase := js "During earthworks";
     focus := js "He Pou Manawa Ora engagement checkpoint";
     role := js "Attend engagement checkpoint; confirm cultural measures are active";
     frequency := if includeHPMOFlag then js "At each stage-gate" else js "(disabled)" |}.

Definition waikatoAccessRow : MonitoringRow :=
  {| phase := js "During earthworks";
     focus := js "Waikato District Plan noise/access checks near marae";
     role := (js "Check access windows and noise limits with wh" ++ u 0x0101 ++ js "nau");
     frequency := js "Weekly" |}.

(** [/mudfish|īnanga/]. *)
Definition speciesPattern : regex := Alt (lit (js "mudfish")) (lit (u 0x012B ++ js "nanga")).

(** The callback of [findings.map] in [deriveMonitoringRows]. *)
Definition scannedText (f : Finding) : jsstring :=
  toLowerCase (issue f ++ js " " ++ join (js " ") (recommendations f)).

(** The [text] the deriver scans. *)
Definition findingsText (findings : list Finding) : jsstring :=
  join (js " ") (map scannedText findings).

Definition hasMudfish (findings : list Finding) : bool :=
  test speciesPattern (findingsText findings).

(** [rows.find((r) => r.focus.toLowerCase().includes("mudfish"))],
    as a truth value. *)
Definition coversMudfish (rows : list MonitoringRow) : bool :=
  existsb (fun r => includes (toLowerCase (focus r)) (js "mudfish")) rows.

(** [rows.splice(1, 0, row)]: a start index past the end is clamped to
    the length. *)
Definition spliceAt1 {A : Type} (row : A) (rows : list A) : list A :=
  firstn 1 rows ++ row :: skipn 1 rows.

(** The body of [deriveMonitoringRows], from the copy [rows] of the
    base rows on. *)
Definition deriveMonitoringRowsFrom (rows : list MonitoringRow) (findings : list Finding)
    (councilName : jsstring) (includeHPMOFlag : bool) : list MonitoringRow :=
  let rows1 :=
    if hasMudfish findings && negb (coversMudfish rows)
    then spliceAt1 speciesRow rows
    else rows in
  if streq councilName HamiltonCityCouncil
  then rows1 ++ [hamiltonCheckpointRow includeHPMOFlag]
  else rows1 ++ [waikatoAccessRow].

Definition deriveMonitoringRows (findings : list Finding) (councilName : jsstring)
    (includeHPMOFlag : bool) : list MonitoringRow :=
  deriveMonitoringRowsFrom baseMonitoringPlanRows findings councilName includeHPMOFlag.

(* ================================================================== *)
(** * Document exporter *)
(* ================================================================== *)

(** The [docx] element tree the exporters build. *)
Inductive HeadingLevel : Type := TITLE | HEADING_2 | HEADING_3.

Inductive Block : Type :=
| Paragraph (text : jsstring) (heading : option HeadingLevel)
| ImageRun (data : list N) (width height : N)
| Table (widthPercent : N) (rows : list (list jsstring)).

(** The [children] of the one section of a [DocxDocument]. *)
Definition DocxDocument : Type := list Block.

(** [s.replace(/\s+/g, "_")]: every maximal run of white space becomes
    one underscore. *)
Fixpoint replaceSpaceRuns (inRun : bool) (s : jsstring) : jsstring :=
  match s with
  | [] => []
  | c :: s' =>
      if isSpace c
      then (if inRun then [] else js "_") ++ replaceSpaceRuns true s'
      else c :: replaceSpaceRuns false s'
  end.

Definition underscored (s : jsstring) : jsstring := replaceSpaceRuns false s.

Definition monitoringTableHeader : list jsstring :=
  [ js "Phase"; js "Monitoring focus"; js "Role of Cultural Monitor"; js "Frequency" ].

Definition monitoringTableRow (r : MonitoringRow) : list jsstring :=
  [ phase r; focus r; role r; frequency r ].

Definition monitoringDocument (project : jsstring) (rows : list MonitoringRow) : DocxDocument :=
  [ Paragraph (js "Cultural Monitoring Programme") (Some TITLE)
  ; Paragraph (js "Project: " ++ project) None
  ; Paragraph (js "Timeline & Tasks") (Some HEADING_2)
  ; Table 100 (monitoringTableHeader :: map monitoringTableRow rows)
  ; Paragraph (js "Job Description") (Some HEADING_2)
  ; Paragraph (u 0x2022 ++ js " Represent mana whenua onsite and act as kaitiaki of w" ++ u 0x0101 ++ js "hi tapu, wai and whenua.") None
  ; Paragraph (u 0x2022 ++ js " Hold stop-work authority when tikanga or cultural risk is observed.") None
  ; Paragraph (u 0x2022 ++ js " Record observations (photos + narrative) into the CIA dashboard.") None
  ; Paragraph (u 0x2022 ++ js " Attend toolbox talks and ensure contractors understand cultural protocols.") None
  ; Paragraph (u 0x2022 ++ js " Escalate incident triggers to Project Manager and Council.") None ].

Definition narrativeDocument (title body : jsstring) (figureBlocks : list (list Block))
  : DocxDocument :=
  Paragraph title (Some TITLE)
  :: map (fun line => Paragraph line None) (split 0x0A body)
  ++ Paragraph (js "Selected Figures (Inline)") (Some HEADING_2)
  :: List.concat figureBlocks.

(** [f.dataUrl.split(",")[1] || ""]. *)
Definition payload (f : Figure) : jsstring :=
  orElse (nth_error (split 0x2C (dataUrl f)) 1) [].

(** The two blocks of a figure whose payload [atob] decoded to [bin];
    [Uint8Array.from] keeps the low byte of each unit. *)
Definition decodedFigure (f : Figure) (bin : jsstring) : list Block :=
  [ Paragraph (caption f) (Some HEADING_3)
  ; ImageRun (map (fun c => c mod 256) bin) 360 240 ].

Definition exportFailedMessage : jsstring := js "DOCX export failed. Check console for details.".

Section Host.

(** What the browser and the [docx] package provide: the values a
    failing call throws, the packaged [Blob], [atob] (which throws on
    a malformed payload) and the packaging of the element tree by
    [Packer.toBlob] (whose promise may reject). *)
Variable JsError : Type.
Variable Blob : Type.
Variable atob : jsstring -> JsError + jsstring.
Variable toBlob : DocxDocument -> JsError + Blob.

(** What a call does to the page.  [Download] stands for the anchor
    element the exporter creates, clicks and removes: the file handed
    to the user under a name. *)
Inductive Event : Type :=
| Download (filename : jsstring) (blob : Blob)
| ConsoleError (e : JsError)
| Alert (message : jsstring).

(** A computation that logs events and may throw. *)
Definition Eff (A : Type) : Type := list Event * (JsError + A).

Definition ret {A : Type} (a : A) : Eff A := ([], inr a).

Definition bind {A B : Type} (m : Eff A) (k : A -> Eff B) : Eff B :=
  match m with
  | (tr, inl e) => (tr, inl e)
  | (tr, inr a) => let (tr', r) := k a in (tr ++ tr', r)
  end.

Definition call {A : Type} (r : JsError + A) : Eff A := ([], r).

Definition emit (ev : Event) : Eff unit := ([ev], inr tt).

(** [try { m } catch (e) { handler(e) }]. *)
Definition tryCatch {A : Type} (m : Eff A) (handler : JsError -> Eff A) : Eff A :=
  match m with
  | (tr, inl e) => let (tr', r) := handler e in (tr ++ tr', r)
  | (tr, inr a) => (tr, inr a)
  end.

Notation "x <- m ;; k" := (bind m (fun x => k))
  (at level 61, m at next level, right associativity).

(** [xs.map(f)] for a callback that may throw. *)
Fixpoint mapM {A B : Type} (f : A -> Eff B) (xs : list A) : Eff (list B) :=
  match xs with
  | [] => ret []
  | x :: xs' => y <- f x ;; ys <- mapM f xs' ;; ret (y :: ys)
  end.

(** The callback of [figures.map] in [exportNarrativeDocx]. *)
Definition figureBlock (f : Figure) : Eff (list Block) :=
  bin <- call (atob (payload f)) ;;
  ret (decodedFigure f bin).

Definition reportFailure (e : JsError) : Eff unit :=
  _ <- emit (ConsoleError e) ;; emit (Alert exportFailedMessage).

Definition exportNarrativeDocx (title body : jsstring) (figures : list Figure) : Eff unit :=
  tryCatch
    (figureBlocks <- mapM figureBlock figures ;;
     blob <- call (toBlob (narrativeDocument title body figureBlocks)) ;;
     emit (Download (underscored title ++ js ".docx") blob))
    reportFailure.

Definition exportMonitoringDocx (project : jsstring) (rows : list MonitoringRow) : Eff unit :=
  tryCatch
    (blob <- call (toBlob (monitoringDocument project rows)) ;;
     emit (Download (js "Cultural_Monitoring_Programme_" ++ underscored project ++ js ".docx") blob))
    reportFailure.

(** The events of a call that are a delivered file. *)
Definition isDownload (ev : Event) : bool :=
  match ev with
  | Download _ _ => true
  | _ => false
  end.

Definition downloads (m : Eff unit) : list Event := filter isDownload (fst m).

(** Every figure of [figures] decoded, in order. *)
Definition allDecoded (figures : list Figure) (blocks : list (list Block)) : Prop :=
  Forall2 (fun f b => exists bin, atob (payload f) = inr bin /\ b = decodedFigure f bin)
          figures blocks.

End Host.

Arguments ret {JsError Blob A}.
Arguments bind {JsError Blob A B}.
Arguments mapM {JsError Blob A B}.
Arguments figureBlock {JsError Blob}.
Arguments exportNarrativeDocx {JsError Blob}.
Arguments exportMonitoringDocx {JsError Blob}.
Arguments downloads {JsError Blob}.
Arguments allDecoded {JsError}.
Arguments Download {JsError Blob}.
Arguments ConsoleError {JsError Blob}.
Arguments Alert {JsError Blob}.

(* ================================================================== *)
(** * Self-check validator *)
(* ================================================================== *)

(** [/Whakatau\\u0101k\\u012B/]: in the pattern each doubled backslash
    is one escaped backslash, so the pattern asks for the twelve units
    of the two written-out escapes, not for the two macron letters. *)
Definition markerPattern : regex := lit (js "Whakatau" ++ u 0x5C ++ js "u0101k" ++ u 0x5C ++ js "u012B").

Definition expectedCategories : list jsstring :=
  [ js "wai"; js "whenua"; js "whakapapa"; (js "wh" ++ u 0x0101 ++ js "nau"); js "mauri"; js "wairua" ].

(** [throw new Error(message)] inside the [try] of [runSelfChecks]. *)
Definition check (ok : bool) (message : jsstring) : jsstring + unit :=
  if ok then inr tt else inl message.

Definition andThen (a : jsstring + unit) (b : jsstring + unit) : jsstring + unit :=
  match a with
  | inl m => inl m
  | inr _ => b
  end.

Fixpoint forEachCheck {A : Type} (f : A -> jsstring + unit) (xs : list A) : jsstring + unit :=
  match xs with
  | [] => inr tt
  | x :: xs' => andThen (f x) (forEachCheck f xs')
  end.

Definition isEmpty (s : jsstring) : bool :=
  match s with
  | [] => true
  | _ :: _ => false
  end.

(** The checks of [runSelfChecks], in order.  The loop over the six
    field names tests for [null], which a [Finding] of this embedding
    cannot hold, so that test never throws here. *)
Definition selfChecks (st : Session) (findings : list Finding) : jsstring + unit :=
  andThen (forEachCheck
             (fun f => check (negb (isEmpty (category f) || isEmpty (issue f)))
                             (js "Missing category or issue")) findings)
  (andThen (check (test markerPattern (buildStandardManaWhenua st findings))
                  (js "Unicode escape missing"))
  (andThen (check (includes (buildStandardCouncil st findings)
                            (if streq (council st) HamiltonCityCouncil
                             then js "He Pou Manawa Ora" else js "Waikato District Plan"))
                  (js "Council branch failed"))
  (andThen (forEachCheck
              (fun c => check (existsb (streq c) (map category findings))
                              (js "Missing category: " ++ c)) expectedCategories)
  (andThen (check (negb (Nat.eqb (List.length (filter selected (figureGallery st))) 0))
                  (js "No figures selected"))
  (andThen (check (test (lit (js "Waitawhiriwhiri ICMP"))
                        (inferICMP (Some (js "Waitawhiriwhiri")) HamiltonCityCouncil))
                  (js "ICMP inference failed for Waitawhiriwhiri"))
           (check (test (lit (js "Mangakotukutuku ICMP"))
                        (inferICMP (Some (js "Mangakotukutuku")) HamiltonCityCouncil))
                  (js "ICMP inference failed for Mangakotukutuku"))))))).

(** [runSelfChecks()].  Each thrown message is a non-empty string, so
    [e.message || String(e)] is the message. *)
Definition runSelfChecks (st : Session) (findings : list Finding) : jsstring :=
  match selfChecks st findings with
  | inr _ => (js "All self-checks passed")
  | inl message => js "Test failure: " ++ message
  end.

(* ================================================================== *)
(** * Vocabulary of the properties *)
(* ================================================================== *)

(** A Region that has a name. *)
Definition namedRegion (r : Region) : Prop := name r <> [].

(** The candidates of a location: the names of the Regions of the
    council's dictionary that match, in declaration order. *)
Definition candidates (location : jsstring) (c : jsstring) : list jsstring :=
  map name (filter (areaMatches (normalizeForMatch (Some location))) (dictionaryOf c)).

(** A location that names a suburb of two Hamilton Regions. *)
Definition twoRegionSession : Session :=
  setProjectLocation (js "Frankton, near Glenview") initialSession.

(** The row [deriveMonitoringRows] appends for a council. *)
Definition councilRow (councilName : jsstring) (includeHPMOFlag : bool) : MonitoringRow :=
  if streq councilName HamiltonCityCouncil
  then hamiltonCheckpointRow includeHPMOFlag
  else waikatoAccessRow.

(** Findings to try the species scan on. *)
Definition mudfishFinding : Finding :=
  {| category := js "wai";
     issue := js "Black mudfish recorded in the farm drains";
     effects := {| cultural := []; social := []; environmental := []; spiritual := [] |};
     mitigations := [];
     recommendations := [ js "Survey before dewatering" ];
     triggers := {| metrics := []; baselines := []; thresholds := []; actions := [];
                    reporting := [] |};
     policyLinks := [];
     consentClauses := [] |}.

(** A council value that is not one of the two options. *)
Definition misspeltCouncil : jsstring := js "Hamilton city council".



Definition inangaFinding : Finding :=
  {| category := js "wai";
     issue := (js "Loss of " ++ u 0x012B ++ js "nanga spawning habitat");
     effects := {| cultural := []; social := []; environmental := []; spiritual := [] |};
     mitigations := [];
     recommendations := [ js "Fence the spawning reach" ];
     triggers := {| metrics := []; baselines := []; thresholds := []; actions := [];
                    reporting := [] |};
     policyLinks := [];
     consentClauses := [] |}.


(** Whether a string holds a given unit. *)
Definition hasUnit (c : N) (s : jsstring) : bool := existsb (N.eqb c) s.






(** A host whose [atob] accepts only payloads over the base-64
    alphabet and whose packager always succeeds, to try the exporter
    on. *)
Definition isBase64Unit (c : N) : bool :=
  ((0x41 <=? c) && (c <=? 0x5A)) || ((0x61 <=? c) && (c <=? 0x7A))
  || ((0x30 <=? c) && (c <=? 0x39)) || (c =? 0x2B) || (c =? 0x2F) || (c =? 0x3D).

Definition strictAtob (s : jsstring) : jsstring + jsstring :=
  if forallb isBase64Unit s then inr s else inl (js "InvalidCharacterError").

Definition idlePackager (d : DocxDocument) : jsstring + DocxDocument := inr d.

Definition brokenFigure : Figure :=
  {| id := js "fig-9";
     caption := js "Figure 9: Site plan";
     dataUrl := js "data:image/png;base64,@@not base64@@";
     selected := true |}.

(* ================================================================== *)
(** * Further handlers of the page *)
(* ================================================================== *)

Definition setProjectName (v : jsstring) (st : Session) : Session :=
  {| council := council st; includeHPMO := includeHPMO st;
     projectName := v; projectLocation := projectLocation st;
     inferredICMP := inferredICMP st; icmpOptions := icmpOptions st;
     showIcmpModal := showIcmpModal st; icmpTemp := icmpTemp st;
     figureGallery := figureGallery st |}.

Definition setFigureGallery (v : list Figure) (st : Session) : Session :=
  {| council := council st; includeHPMO := includeHPMO st;
     projectName := projectName st; projectLocation := projectLocation st;
     inferredICMP := inferredICMP st; icmpOptions := icmpOptions st;
     showIcmpModal := showIcmpModal st; icmpTemp := icmpTemp st;
     figureGallery := v |}.

(** [{ ...g, selected: v }]. *)
Definition withSelected (v : bool) (g : Figure) : Figure :=
  {| id := id g; caption := caption g; dataUrl := dataUrl g; selected := v |}.

(** The updater a figure's checkbox passes to [setFigureGallery]:
    [prev.map((g) => (g.id === fig.id ? { ...g, selected: checked } : g))]. *)
Definition toggleFigure (figId : jsstring) (checked : bool) (prev : list Figure) : list Figure :=
  map (fun g => if streq (id g) figId then withSelected checked g else g) prev.

(** The [onChange] of the checkbox of the figure [figId]. *)
Definition handleFigureChange (figId : jsstring) (checked : bool) (st : Session) : Session :=
  setFigureGallery (toggleFigure figId checked (figureGallery st)) st.

(** The [onChange] of the He Pou Manawa Ora checkbox; the checkbox is
    [disabled] unless the council is Hamilton, and a disabled checkbox
    fires nothing. *)
Definition handleHPMOChange (checked : bool) (st : Session) : Session :=
  if streq (council st) HamiltonCityCouncil then setIncludeHPMO checked st else st.

(** What the user can do to the session.  The council selector offers
    the two councils; the chooser's selector offers [icmpOptions]; the
    chooser's controls exist only while it is shown; a figure's
    checkbox carries the id of a figure of the gallery. *)
Inductive step : Session -> Session -> Prop :=
| StepProjectName (v : jsstring) (st : Session) : step st (setProjectName v st)
| StepProjectLocation (v : jsstring) (st : Session) : step st (setProjectLocation v st)
| StepAutoDetect (st : Session) : step st (handleAutoDetectICMP st)
| StepCouncil (v : jsstring) (st : Session) :
    v = HamiltonCityCouncil \/ v = WaikatoDistrictCouncil ->
    step st (handleCouncilChange v st)
| StepHPMO (checked : bool) (st : Session) : step st (handleHPMOChange checked st)
| StepChoose (opt : jsstring) (st : Session) :
    showIcmpModal st = true -> In opt (icmpOptions st) -> step st (setIcmpTemp opt st)
| StepConfirm (st : Session) : showIcmpModal st = true -> step st (confirmICMP st)
| StepCancel (st : Session) : showIcmpModal st = true -> step st (cancelICMP st)
| StepFigure (fig : Figure) (checked : bool) (st : Session) :
    In fig (figureGallery st) -> step st (handleFigureChange (id fig) checked st).

Inductive reachable : Session -> Prop :=
| ReachInitial : reachable initialSession
| ReachStep (st st' : Session) : reachable st -> step st st' -> reachable st'.

(** The names of the Regions of both dictionaries. *)
Definition regionNames : list jsstring := map name HCC_ICMPS ++ map name WDC_ICMPS.

(** Every label the classifier can produce, and the initial one. *)
Definition knownLabels : list jsstring :=
  notSet :: hamiltonFallback :: waikatoFallback :: regionNames.

(** A figure up to its selection. *)
Definition figureSource (g : Figure) : jsstring * jsstring * jsstring :=
  (id g, caption g, dataUrl g).

(** What every reachable session satisfies. *)
Record sessionInvariant (st : Session) : Prop := {
  inv_council : council st = HamiltonCityCouncil \/ council st = WaikatoDistrictCouncil;
  inv_hpmo : includeHPMO st = true -> council st = HamiltonCityCouncil;
  inv_label : In (inferredICMP st) knownLabels;
  inv_options : forall opt, In opt (icmpOptions st) -> In opt regionNames;
  inv_closed : showIcmpModal st = false -> icmpOptions st = [];
  inv_open : showIcmpModal st = true ->
             (2 <= List.length (icmpOptions st))%nat /\ In (icmpTemp st) (icmpOptions st);
  inv_gallery : map figureSource (figureGallery st)
                = map figureSource (figureGallery initialSession)
}.

(** Duplicate-freeness of a list of strings, decided. *)
Fixpoint distinct (l : list jsstring) : bool :=
  match l with
  | [] => true
  | x :: l' => negb (existsb (streq x) l') && distinct l'
  end.

(** A unit that is not white space. *)
Definition notSpace (c : N) : bool := negb (isSpace c).

(** The file names of the downloads of an export. *)
Definition downloadNames {JsError Blob : Type} (m : Eff JsError Blob unit) : list jsstring :=
  flat_map (fun ev => match ev with Download n _ => [n] | _ => [] end) (fst m).

(** The unit just before a position: the last unit of the text [a]
    read so far, or the one before [a] when [a] is empty. *)
Fixpoint lastUnit (prev : option N) (a : jsstring) : option N :=
  match a with
  | [] => prev
  | c :: a' => lastUnit (Some c) a'
  end.

(** [w] occurs in [s] with no word character directly before or after
    it; [prev] is the unit before [s]. *)
Fixpoint occursAsWordFrom (w : jsstring) (prev : option N) (s : jsstring) : bool :=
  (negb (isWordCharAt prev) && startsWith w s
   && negb (isWordCharAt (hd_error (skipn (List.length w) s))))
  || match s with
     | c :: s' => occursAsWordFrom w (Some c) s'
     | [] => false
     end.


(** The value of a string of decimal digits. *)
Definition parseDecimal (s : jsstring) : N :=
  fold_left (fun acc d => 10 * acc + (d - 0x30)) s 0.

Definition isDigit (c : N) : bool := (0x30 <=? c) && (c <=? 0x39).

(** The text the marker pattern asks for. *)
Definition markerText : jsstring :=
  js "Whakatau" ++ u 0x5C ++ js "u0101k" ++ u 0x5C ++ js "u012B".

(* ================================================================== *)
(** * Properties *)
(* ================================================================== *)

(** ** Strings *)

Lemma streq_spec (a b : jsstring) : reflect (a = b) (streq a b).
Proof.
  revert b; induction a as [|x a IH]; intros [|y b]; simpl;
    try (constructor; congruence).
  destruct (N.eqb_spec x y) as [->|Hne]; simpl.
  - destruct (IH b) as [->|Hne]; constructor; congruence.
  - constructor; congruence.
Qed.

Lemma streq_refl (a : jsstring) : streq a a = true.
Proof. destruct (streq_spec a a); congruence. Qed.

Lemma streq_neq (a b : jsstring) : a <> b -> streq a b = false.
Proof. destruct (streq_spec a b); congruence. Qed.

Lemma startsWith_app (p s : jsstring) : startsWith p (p ++ s) = true.
Proof.
  induction p as [|c p IH]; simpl; [reflexivity|].
  now rewrite N.eqb_refl, IH.
Qed.

Lemma includes_startsWith (p s : jsstring) : startsWith p s = true -> includes s p = true.
Proof. intros H. destruct s; simpl; rewrite H; reflexivity. Qed.

Lemma includes_app (a p b : jsstring) : includes (a ++ p ++ b) p = true.
Proof.
  induction a as [|c a IH]; simpl.
  - apply includes_startsWith, startsWith_app.
  - rewrite IH. apply orb_true_r.
Qed.

Lemma includes_app_l (s t p : jsstring) : includes s p = true -> includes (s ++ t) p = true.
Proof.
  assert (Hsw : forall q x y, startsWith q x = true -> startsWith q (x ++ y) = true).
  { induction q as [|c q IH]; intros [|d x] y; simpl; try easy.
    intros H. apply andb_true_iff in H as [-> H]. now rewrite IH. }
  induction s as [|c s IH]; simpl; intros H.
  - rewrite orb_false_r in H. destruct p; [destruct t; reflexivity | discriminate].
  - apply orb_true_iff in H as [H|H].
    + pose proof (Hsw p (c :: s) t H) as H'. simpl in H'. now rewrite H'.
    + rewrite (IH H). apply orb_true_r.
Qed.

Lemma includes_app_r (s t p : jsstring) : includes t p = true -> includes (s ++ t) p = true.
Proof.
  intros H. induction s as [|c s IH]; simpl; [exact H|].
  rewrite IH. apply orb_true_r.
Qed.

(** ** Classifier *)

Lemma find_filter_nil {A : Type} (f : A -> bool) (l : list A) :
  filter f l = [] -> find f l = None.
Proof.
  induction l as [|x l IH]; simpl; [reflexivity|].
  destruct (f x); [discriminate | exact IH].
Qed.

Lemma find_filter_hd {A : Type} (f : A -> bool) (l : list A) :
  find f l = hd_error (filter f l).
Proof.
  induction l as [|x l IH]; simpl; [reflexivity|].
  destruct (f x); [reflexivity | exact IH].
Qed.

Lemma dictionaries_named (c : jsstring) : Forall namedRegion (dictionaryOf c).
Proof.
  unfold dictionaryOf, namedRegion.
  destruct (streq c HamiltonCityCouncil); repeat constructor; discriminate.
Qed.

Lemma filter_Forall {A : Type} (P : A -> Prop) (f : A -> bool) (l : list A) :
  Forall P l -> Forall P (filter f l).
Proof.
  induction 1 as [|x l Hx _ IH]; simpl; [constructor|].
  destruct (f x); [constructor|]; assumption.
Qed.

Lemma inferICMPMatches_eq (location : option jsstring) (c : jsstring) :
  inferICMPMatches location c =
  match map name (filter (areaMatches (normalizeForMatch location)) (dictionaryOf c)) with
  | [] => [councilFallback c]
  | m :: ms => m :: ms
  end.
Proof.
  unfold inferICMPMatches. fold (dictionaryOf c). fold (councilFallback c).
  destruct (map name _); reflexivity.
Qed.

Lemma inferICMP_eq (location : option jsstring) (c : jsstring) :
  inferICMP location c =
  match find (areaMatches (normalizeForMatch location)) (dictionaryOf c) with
  | Some hit => name hit
  | None => councilFallback c
  end.
Proof.
  unfold inferICMP, dictionaryOf, councilFallback.
  destruct (streq c HamiltonCityCouncil); reflexivity.
Qed.

Lemma candidates_named (location c : jsstring) : Forall (fun n => n <> []) (candidates location c).
Proof.
  unfold candidates.
  pose proof (filter_Forall namedRegion (areaMatches (normalizeForMatch (Some location)))
                _ (dictionaries_named c)) as H.
  induction H as [|r l Hr _ IH]; simpl; constructor; assumption.
Qed.

(** C1.  When two or more Regions of the council's dictionary match the
    location, [inferICMPMatches] returns exactly the matched names in
    declaration order, and [handleAutoDetectICMP] opens the chooser on
    them with the first one preselected and leaves the resolved label
    as it was; only "Use selected ICMP" replaces the label, "Cancel"
    keeps it. *)
Theorem pending_disambiguation (st : Session) :
  let cs := candidates (projectLocation st) (council st) in
  let st' := handleAutoDetectICMP st in
  (2 <= List.length cs)%nat ->
  inferICMPMatches (Some (projectLocation st)) (council st) = cs /\
  icmpOptions st' = cs /\
  showIcmpModal st' = true /\
  hd_error cs = Some (icmpTemp st') /\
  inferredICMP st' = inferredICMP st /\
  inferredICMP (cancelICMP st') = inferredICMP st /\
  inferredICMP (confirmICMP st') = icmpTemp st'.
Proof.
  intros cs st' Hlen.
  assert (Hm : inferICMPMatches (Some (projectLocation st)) (council st) = cs).
  { rewrite inferICMPMatches_eq. fold (candidates (projectLocation st) (council st)).
    fold cs. destruct cs; [simpl in Hlen; lia | reflexivity]. }
  pose proof (candidates_named (projectLocation st) (council st)) as Hnamed.
  fold cs in Hnamed.
  subst st'. unfold handleAutoDetectICMP. rewrite Hm.
  destruct cs as [|a [|b cs']]; simpl in Hlen; try lia.
  inversion Hnamed as [|? ? Ha _]; subst.
  simpl. destruct a as [|x a]; [congruence|].
  repeat split; reflexivity.
Qed.

Lemma pending_disambiguation_witness :
  (2 <= List.length (candidates (projectLocation twoRegionSession) (council twoRegionSession)))%nat /\
  icmpOptions (handleAutoDetectICMP twoRegionSession)
    = [js "Waitawhiriwhiri ICMP"; js "Mangakotukutuku ICMP"] /\
  icmpTemp (handleAutoDetectICMP twoRegionSession) = js "Waitawhiriwhiri ICMP" /\
  inferredICMP (handleAutoDetectICMP twoRegionSession) = js "(not set)".
Proof.
  assert (H : (2 <= List.length (candidates (projectLocation twoRegionSession)
                                   (council twoRegionSession)))%nat).
  { vm_compute. apply le_n. }
  split; [exact H|].
  destruct (pending_disambiguation twoRegionSession H) as (_ & Ho & _ & Ht & Hi & _).
  rewrite Ho, Hi. split; [vm_compute; reflexivity|]. split; [|vm_compute; reflexivity].
  assert (E : hd_error (candidates (projectLocation twoRegionSession) (council twoRegionSession))
              = Some (js "Waitawhiriwhiri ICMP")) by (vm_compute; reflexivity).
  rewrite E in Ht. now inversion Ht.
Defined.

(** The handler, when at most one Region matches: the label is
    resolved at once and no chooser is opened. *)
Lemma handleAutoDetectICMP_resolved (st : Session) :
  (List.length (candidates (projectLocation st) (council st)) <= 1)%nat ->
  inferredICMP (handleAutoDetectICMP st) = inferICMP (Some (projectLocation st)) (council st) /\
  showIcmpModal (handleAutoDetectICMP st) = false /\
  icmpOptions (handleAutoDetectICMP st) = [].
Proof.
  intros Hlen.
  pose proof (candidates_named (projectLocation st) (council st)) as Hnamed.
  unfold handleAutoDetectICMP.
  rewrite inferICMPMatches_eq, inferICMP_eq, find_filter_hd.
  unfold candidates in Hlen, Hnamed.
  destruct (filter _ (dictionaryOf (council st))) as [|r [|r' l]]; simpl in *; try lia.
  - unfold councilFallback, hamiltonFallback, waikatoFallback.
    destruct (streq (council st) HamiltonCityCouncil); repeat split; reflexivity.
  - inversion Hnamed as [|? ? Hr _]; subst.
    destruct (name r); [congruence | repeat split; reflexivity].
Qed.

(** C2.  Classification is total and never comes back empty-handed:
    [inferICMPMatches] always returns at least one label, and when no
    Region matches, [inferICMP], [inferICMPMatches] and the handler all
    resolve to the council's fallback label.  The empty and the
    undefined location resolve to "Hamilton City ICMP (area to
    confirm)" for Hamilton and to "Waikato District ICMP (area to
    confirm)" for Waikato. *)
Theorem classification_never_fails :
  (forall location c, inferICMPMatches location c <> []) /\
  (forall location c,
      filter (areaMatches (normalizeForMatch location)) (dictionaryOf c) = [] ->
      inferICMP location c = councilFallback c /\
      inferICMPMatches location c = [councilFallback c]) /\
  (forall st,
      candidates (projectLocation st) (council st) = [] ->
      inferredICMP (handleAutoDetectICMP st) = councilFallback (council st) /\
      showIcmpModal (handleAutoDetectICMP st) = false) /\
  inferICMP (Some (js "")) HamiltonCityCouncil = js "Hamilton City ICMP (area to confirm)" /\
  inferICMP None HamiltonCityCouncil = js "Hamilton City ICMP (area to confirm)" /\
  inferICMP (Some (js "")) WaikatoDistrictCouncil = js "Waikato District ICMP (area to confirm)" /\
  inferICMP None WaikatoDistrictCouncil = js "Waikato District ICMP (area to confirm)" /\
  councilFallback HamiltonCityCouncil = js "Hamilton City ICMP (area to confirm)" /\
  councilFallback WaikatoDistrictCouncil = js "Waikato District ICMP (area to confirm)".
Proof.
  split; [|split; [|split]].
  - intros location c. rewrite inferICMPMatches_eq. destruct (map name _); discriminate.
  - intros location c H. rewrite inferICMP_eq, inferICMPMatches_eq, H.
    rewrite (find_filter_nil _ _ H). split; reflexivity.
  - intros st H.
    assert (Hlen : (List.length (candidates (projectLocation st) (council st)) <= 1)%nat)
      by (rewrite H; simpl; lia).
    destruct (handleAutoDetectICMP_resolved st Hlen) as (Hi & Hs & _).
    split; [|exact Hs].
    rewrite Hi, inferICMP_eq, find_filter_hd.
    unfold candidates in H. apply map_eq_nil in H. rewrite H. reflexivity.
  - repeat split; vm_compute; reflexivity.
Qed.

Lemma classification_never_fails_witness :
  filter (areaMatches (normalizeForMatch (Some (js "Raglan")))) (dictionaryOf HamiltonCityCouncil) = [] /\
  inferICMP (Some (js "Raglan")) HamiltonCityCouncil = js "Hamilton City ICMP (area to confirm)" /\
  candidates (projectLocation initialSession) (council initialSession) = [] /\
  inferredICMP (handleAutoDetectICMP initialSession) = js "Hamilton City ICMP (area to confirm)".
Proof.
  assert (H1 : filter (areaMatches (normalizeForMatch (Some (js "Raglan"))))
                 (dictionaryOf HamiltonCityCouncil) = []) by (vm_compute; reflexivity).
  assert (H2 : candidates (projectLocation initialSession) (council initialSession) = [])
    by (vm_compute; reflexivity).
  destruct classification_never_fails as (_ & Hzero & Hst & _).
  split; [exact H1|]. split; [exact (proj1 (Hzero _ _ H1))|].
  split; [exact H2|]. exact (proj1 (Hst _ H2)).
Defined.

(** C8.  The classifier canaries: "Rotokauri" resolves to "Rotokauri
    ICMP" and "Beerescourt" to "Waitawhiriwhiri ICMP" for Hamilton;
    each has exactly one candidate, so the handler resolves the label
    and opens no chooser. *)
Theorem classifier_canaries :
  inferICMP (Some (js "Rotokauri")) HamiltonCityCouncil = js "Rotokauri ICMP" /\
  inferICMPMatches (Some (js "Rotokauri")) HamiltonCityCouncil = [js "Rotokauri ICMP"] /\
  (let st := handleAutoDetectICMP (setProjectLocation (js "Rotokauri") initialSession) in
   inferredICMP st = js "Rotokauri ICMP" /\ showIcmpModal st = false /\ icmpOptions st = []) /\
  inferICMP (Some (js "Beerescourt")) HamiltonCityCouncil = js "Waitawhiriwhiri ICMP" /\
  inferICMPMatches (Some (js "Beerescourt")) HamiltonCityCouncil = [js "Waitawhiriwhiri ICMP"] /\
  (let st := handleAutoDetectICMP (setProjectLocation (js "Beerescourt") initialSession) in
   inferredICMP st = js "Waitawhiriwhiri ICMP" /\ showIcmpModal st = false /\ icmpOptions st = []).
Proof. repeat split; vm_compute; reflexivity. Qed.

(** The matching rules at work: [\b] keeps "peacockes" out, [\s?] and
    [\s*] accept the spaced and the unspaced spellings, and the
    normalizer makes the match blind to case and macrons. *)
Example classifier_examples :
  inferICMP (Some (js "12 Peacocke Road")) HamiltonCityCouncil = js "Peacocke ICMP" /\
  inferICMP (Some (js "Peacockes Road")) HamiltonCityCouncil = hamiltonFallback /\
  inferICMP (Some (js "TE RAPA")) HamiltonCityCouncil = js "Te Rapa ICMP" /\
  inferICMP (Some (js "terapa straight")) HamiltonCityCouncil = js "Te Rapa ICMP" /\
  inferICMP (Some (js "Forest   Lake")) HamiltonCityCouncil = js "Waitawhiriwhiri ICMP" /\
  inferICMP (Some (js "Rotokauri")) WaikatoDistrictCouncil = waikatoFallback /\
  inferICMP (Some (js "Ng" ++ u 0x0100 ++ js "RUAW" ++ u 0x0101 ++ js "hia")) WaikatoDistrictCouncil
    = js "Ng" ++ u 0x0101 ++ js "ruaw" ++ u 0x0101 ++ js "hia ICMP" /\
  normalizeForMatch (Some (js "Ng" ++ u 0x0101 ++ js "ruaw" ++ u 0x0101 ++ js "hia"))
    = normalizeForMatch (Some (js "ngaruawahia")) /\
  inferICMPMatches (Some (js "Frankton, near Glenview")) HamiltonCityCouncil
    = [js "Waitawhiriwhiri ICMP"; js "Mangakotukutuku ICMP"].
Proof. repeat split; vm_compute; reflexivity. Qed.

(** ** Technical-voice renderer *)

Lemma councilScope_includes_phrase (st : Session) :
  includes (councilScope st) (policyPhrase (council st)) = true.
Proof. unfold councilScope. apply includes_app. Qed.

Lemma buildStandardCouncil_includes_scope (st : Session) (findings : list Finding) (p : jsstring) :
  includes (councilScope st) p = true ->
  includes (buildStandardCouncil st findings) p = true.
Proof.
  intros H. unfold buildStandardCouncil.
  do 3 apply includes_app_r. apply includes_app_l. exact H.
Qed.

(** C9.  The assessment-scope paragraph of the technical-voice
    document, and so the document, contains "He Pou Manawa Ora;
    Hamilton District Plan" when the council is "Hamilton City
    Council" and "Waikato District Plan" otherwise; the two phrases
    differ, so switching the council switches the phrase the paragraph
    is built from. *)
Theorem policy_phrase_follows_council (st : Session) (findings : list Finding) :
  policyPhrase (council st) =
    (if streq (council st) HamiltonCityCouncil
     then js "He Pou Manawa Ora; Hamilton District Plan"
     else js "Waikato District Plan") /\
  includes (councilScope st) (policyPhrase (council st)) = true /\
  includes (buildStandardCouncil st findings) (policyPhrase (council st)) = true /\
  includes (councilScope (setCouncil HamiltonCityCouncil st))
           (js "He Pou Manawa Ora; Hamilton District Plan") = true /\
  includes (councilScope (setCouncil WaikatoDistrictCouncil st))
           (js "Waikato District Plan") = true /\
  policyPhrase HamiltonCityCouncil <> policyPhrase WaikatoDistrictCouncil /\
  includes (councilScope initialSession) (js "Waikato District Plan") = false /\
  includes (councilScope (setCouncil WaikatoDistrictCouncil initialSession))
           (js "He Pou Manawa Ora; Hamilton District Plan") = false.
Proof.
  split; [reflexivity|].
  split; [apply councilScope_includes_phrase|].
  split; [apply buildStandardCouncil_includes_scope, councilScope_includes_phrase|].
  split; [exact (councilScope_includes_phrase (setCouncil HamiltonCityCouncil st))|].
  split; [exact (councilScope_includes_phrase (setCouncil WaikatoDistrictCouncil st))|].
  split; [vm_compute; discriminate|].
  split; vm_compute; reflexivity.
Qed.

(** ** Monitoring plan deriver *)

(** The shape of the result for any four rows to start from: the
    species row, when inserted, is the second row. *)
Lemma deriveMonitoringRowsFrom_shape (b0 b1 b2 b3 : MonitoringRow) (findings : list Finding)
    (c : jsstring) (flag : bool) :
  deriveMonitoringRowsFrom [b0; b1; b2; b3] findings c flag =
    b0 :: (if hasMudfish findings && negb (coversMudfish [b0; b1; b2; b3])
           then [speciesRow] else [])
       ++ [b1; b2; b3; councilRow c flag].
Proof.
  unfold deriveMonitoringRowsFrom, councilRow, spliceAt1.
  destruct (hasMudfish findings && negb (coversMudfish [b0; b1; b2; b3]));
    destruct (streq c HamiltonCityCouncil); reflexivity.
Qed.

(** The first base row already has "mudfish" in its focus. *)
Lemma base_covers_mudfish : coversMudfish baseMonitoringPlanRows = true.
Proof. vm_compute. reflexivity. Qed.

(** So the guard of the insertion is never passed: the plan is the four
    base rows and the council's row. *)
Lemma deriveMonitoringRows_eq (findings : list Finding) (c : jsstring) (flag : bool) :
  deriveMonitoringRows findings c flag = baseMonitoringPlanRows ++ [councilRow c flag].
Proof.
  unfold deriveMonitoringRows, deriveMonitoringRowsFrom, councilRow.
  rewrite base_covers_mudfish, andb_false_r.
  destruct (streq c HamiltonCityCouncil); reflexivity.
Qed.

Lemma speciesRow_not_derived (findings : list Finding) (c : jsstring) (flag : bool) :
  ~ In speciesRow (deriveMonitoringRows findings c flag).
Proof.
  rewrite deriveMonitoringRows_eq. unfold councilRow. intros H.
  apply in_app_or in H as [H|[H|[]]].
  - repeat (destruct H as [H|H];
            [apply (f_equal focus) in H; vm_compute in H; discriminate|]).
    exact H.
  - destruct (streq c HamiltonCityCouncil);
      apply (f_equal focus) in H; vm_compute in H; discriminate.
Qed.

(** C3.  For every findings list, council and toggle the plan has 5 or 6
    rows: the first base row, then the species row or nothing, then the
    other three base rows, then exactly one row chosen by the council.
    A species row can therefore only sit at index 1. *)
Theorem monitoring_rows_shape (findings : list Finding) (c : jsstring) (flag : bool) :
  let rows := deriveMonitoringRows findings c flag in
  (List.length rows = 5%nat \/ List.length rows = 6%nat) /\
  (exists species,
      (species = [] \/ species = [speciesRow]) /\
      rows = firstn 1 baseMonitoringPlanRows ++ species
             ++ skipn 1 baseMonitoringPlanRows ++ [councilRow c flag]) /\
  List.length baseMonitoringPlanRows = 4%nat /\
  (councilRow c flag = hamiltonCheckpointRow flag \/ councilRow c flag = waikatoAccessRow) /\
  (forall i, nth_error rows i = Some speciesRow -> i = 1%nat) /\
  (forall b0 b1 b2 b3,
      hasMudfish findings && negb (coversMudfish [b0; b1; b2; b3]) = true ->
      let rows' := deriveMonitoringRowsFrom [b0; b1; b2; b3] findings c flag in
      List.length rows' = 6%nat /\ nth_error rows' 1 = Some speciesRow /\
      rows' = [b0; speciesRow; b1; b2; b3; councilRow c flag]).
Proof.
  intros rows.
  assert (Hshape : rows = firstn 1 baseMonitoringPlanRows
                          ++ (if hasMudfish findings && negb (coversMudfish baseMonitoringPlanRows)
                              then [speciesRow] else [])
                          ++ skipn 1 baseMonitoringPlanRows ++ [councilRow c flag]).
  { subst rows. unfold deriveMonitoringRows, baseMonitoringPlanRows.
    rewrite deriveMonitoringRowsFrom_shape. reflexivity. }
  split; [|split; [|split; [|split; [|split]]]].
  - rewrite Hshape.
    destruct (hasMudfish findings && negb (coversMudfish baseMonitoringPlanRows));
      [right | left]; reflexivity.
  - eexists. split; [|exact Hshape].
    destruct (hasMudfish findings && negb (coversMudfish baseMonitoringPlanRows)); auto.
  - reflexivity.
  - unfold councilRow. destruct (streq c HamiltonCityCouncil); auto.
  - intros i Hi. apply nth_error_In in Hi.
    exfalso. exact (speciesRow_not_derived findings c flag Hi).
  - intros b0 b1 b2 b3 Hguard rows'. subst rows'.
    rewrite deriveMonitoringRowsFrom_shape, Hguard. repeat split; reflexivity.
Qed.

Lemma monitoring_rows_shape_witness :
  hasMudfish [mudfishFinding]
  && negb (coversMudfish [waikatoAccessRow; waikatoAccessRow; waikatoAccessRow; waikatoAccessRow])
  = true /\
  nth_error (deriveMonitoringRowsFrom
               [waikatoAccessRow; waikatoAccessRow; waikatoAccessRow; waikatoAccessRow]
               [mudfishFinding] HamiltonCityCouncil true) 1 = Some speciesRow /\
  List.length (deriveMonitoringRows [mudfishFinding] HamiltonCityCouncil true) = 5%nat.
Proof.
  assert (H : hasMudfish [mudfishFinding]
              && negb (coversMudfish [waikatoAccessRow; waikatoAccessRow;
                                      waikatoAccessRow; waikatoAccessRow]) = true)
    by (vm_compute; reflexivity).
  split; [exact H|].
  destruct (monitoring_rows_shape [mudfishFinding] HamiltonCityCouncil true)
    as (_ & _ & _ & _ & _ & Hins).
  split; [exact (proj1 (proj2 (Hins _ _ _ _ H)))|].
  vm_compute. reflexivity.
Defined.

(** C10.  Every council-dependent choice tests [=== "Hamilton City
    Council"] and nothing else: any other council value is classified
    against the Waikato dictionary with the Waikato fallback, gets the
    "Waikato District Plan" phrase and the weekly access/noise row,
    exactly as "Waikato District Council" does. *)
Theorem other_councils_are_waikato (c : jsstring) :
  c <> HamiltonCityCouncil ->
  dictionaryOf c = WDC_ICMPS /\
  councilFallback c = js "Waikato District ICMP (area to confirm)" /\
  (forall location,
      inferICMP location c = inferICMP location WaikatoDistrictCouncil /\
      inferICMPMatches location c = inferICMPMatches location WaikatoDistrictCouncil) /\
  (forall st, handleAutoDetectICMP (setCouncil c st)
              = setCouncil c (handleAutoDetectICMP (setCouncil WaikatoDistrictCouncil st))) /\
  policyPhrase c = js "Waikato District Plan" /\
  (forall st findings,
      buildStandardCouncil (setCouncil c st) findings
      = buildStandardCouncil (setCouncil WaikatoDistrictCouncil st) findings) /\
  (forall findings flag,
      deriveMonitoringRows findings c flag = deriveMonitoringRows findings WaikatoDistrictCouncil flag /\
      deriveMonitoringRows findings c flag = baseMonitoringPlanRows ++ [waikatoAccessRow]).
Proof.
  intros Hc. apply streq_neq in Hc.
  assert (Hw : streq WaikatoDistrictCouncil HamiltonCityCouncil = false) by reflexivity.
  assert (Hd : dictionaryOf c = WDC_ICMPS) by (unfold dictionaryOf; now rewrite Hc).
  assert (Hf : councilFallback c = waikatoFallback) by (unfold councilFallback; now rewrite Hc).
  split; [exact Hd|]. split; [exact Hf|].
  split; [|split; [|split; [|split]]].
  - intros location. unfold inferICMP, inferICMPMatches. rewrite Hc, Hw. split; reflexivity.
  - intros st. unfold handleAutoDetectICMP, inferICMPMatches, councilFallback.
    cbn [council projectLocation setCouncil]. rewrite Hc, Hw.
    destruct (Nat.leb _ 1); reflexivity.
  - unfold policyPhrase. now rewrite Hc.
  - intros st findings. unfold buildStandardCouncil, councilScope, policyPhrase.
    cbn [council setCouncil]. now rewrite Hc, Hw.
  - intros findings flag. rewrite !deriveMonitoringRows_eq. unfold councilRow.
    now rewrite Hc, Hw.
Qed.

Lemma other_councils_are_waikato_witness :
  misspeltCouncil <> HamiltonCityCouncil /\
  inferICMP (Some (js "Huntly")) misspeltCouncil = js "Huntly ICMP" /\
  inferICMP (Some (js "Rotokauri")) misspeltCouncil = js "Waikato District ICMP (area to confirm)" /\
  policyPhrase misspeltCouncil = js "Waikato District Plan" /\
  deriveMonitoringRows sampleFindings misspeltCouncil true
    = baseMonitoringPlanRows ++ [waikatoAccessRow].
Proof.
  assert (H : misspeltCouncil <> HamiltonCityCouncil) by (vm_compute; discriminate).
  split; [exact H|].
  destruct (other_councils_are_waikato misspeltCouncil H) as (_ & _ & Hi & _ & Hp & _ & Hr).
  split; [rewrite (proj1 (Hi _)); vm_compute; reflexivity|].
  split; [rewrite (proj1 (Hi _)); vm_compute; reflexivity|].
  split; [exact Hp|]. exact (proj2 (Hr _ _)).
Defined.

(** ** Species scan *)




(** ** Self-check marker *)

Lemma matchesAt_lit (p : jsstring) (prev : option N) (s : jsstring) :
  p <> [] -> matchesAt (lit p) prev s = startsWith p s.
Proof.
  revert prev s. induction p as [|c p IH]; intros prev s Hp; [congruence|].
  destruct p as [|c' p'].
  - unfold matchesAt. simpl. destruct s as [|d s]; [reflexivity|].
    destruct (c =? d); reflexivity.
  - assert (Hp' : c' :: p' <> []) by discriminate.
    change (lit (c :: c' :: p')) with (Seq (Chr c) (lit (c' :: p'))).
    unfold matchesAt. cbn [matchAt startsWith].
    destruct s as [|d s]; [reflexivity|].
    destruct (c =? d); [|reflexivity].
    cbn [flat_map fst snd andb]. rewrite app_nil_r.
    exact (IH (Some d) s Hp').
Qed.

Lemma test_lit (p s : jsstring) : p <> [] -> test (lit p) s = includes s p.
Proof.
  intros Hp. unfold test. generalize (@None N) as prev.
  induction s as [|d s IH]; intros prev; simpl; rewrite (matchesAt_lit p prev _ Hp).
  - reflexivity.
  - now rewrite IH.
Qed.

Lemma startsWith_In (p s : jsstring) (c : N) : startsWith p s = true -> In c p -> In c s.
Proof.
  revert s. induction p as [|x p IH]; intros [|y s] H Hin; simpl in *; try easy.
  apply andb_true_iff in H as [Hxy H]. apply N.eqb_eq in Hxy. subst y.
  destruct Hin as [->|Hin]; [now left | right; now apply IH].
Qed.

Lemma includes_In (s p : jsstring) (c : N) : includes s p = true -> In c p -> In c s.
Proof.
  induction s as [|y s IH]; simpl; intros H Hin.
  - rewrite orb_false_r in H. exact (startsWith_In p [] c H Hin).
  - apply orb_true_iff in H as [H|H].
    + exact (startsWith_In p (y :: s) c H Hin).
    + right. now apply IH.
Qed.

Lemma In_join (c : N) (sep : jsstring) (xs : list jsstring) :
  In c (join sep xs) -> In c sep \/ exists x, In x xs /\ In c x.
Proof.
  induction xs as [|x xs IH]; [intros []|].
  destruct xs as [|y xs].
  - intros H. right. exists x. split; [now left | exact H].
  - change (join sep (x :: y :: xs)) with (x ++ sep ++ join sep (y :: xs)).
    intros H. apply in_app_or in H as [H|H].
    + right. exists x. split; [now left | exact H].
    + apply in_app_or in H as [H|H]; [now left|].
      destruct (IH H) as [Hs|(z & Hz & Hc)]; [now left|].
      right. exists z. split; [now right | exact Hc].
Qed.

Lemma hasUnit_In (c : N) (s : jsstring) : hasUnit c s = false -> ~ In c s.
Proof.
  unfold hasUnit. intros H Hin.
  assert (Ht : existsb (N.eqb c) s = true).
  { apply existsb_exists. exists c. split; [exact Hin | apply N.eqb_refl]. }
  congruence.
Qed.

(** A backslash in the community-voice document over the sample
    findings can only come from the project name or the resolved
    label. *)
Lemma backslash_origin (st : Session) :
  In 0x5C (buildStandardManaWhenua st sampleFindings) ->
  In 0x5C (projectName st) \/ In 0x5C (inferredICMP st).
Proof.
  unfold buildStandardManaWhenua. intros H.
  apply In_join in H as [H|(x & Hx & H)].
  { exfalso. revert H. apply hasUnit_In. vm_compute. reflexivity. }
  destruct Hx as [<-|[<-|[<-|[<-|[<-|[]]]]]].
  - unfold manaWhenuaIntro in H.
    apply in_app_or in H as [H|H].
    { exfalso. revert H. apply hasUnit_In. vm_compute. reflexivity. }
    apply in_app_or in H as [H|H]; [now left|].
    exfalso. revert H. apply hasUnit_In. vm_compute. reflexivity.
  - exfalso. revert H. apply hasUnit_In. vm_compute. reflexivity.
  - exfalso. revert H. apply hasUnit_In. vm_compute. reflexivity.
  - unfold manaWhenuaAlign in H.
    apply in_app_or in H as [H|H].
    { exfalso. revert H. apply hasUnit_In. vm_compute. reflexivity. }
    apply in_app_or in H as [H|H]; [now right|].
    exfalso. revert H. apply hasUnit_In. vm_compute. reflexivity.
  - exfalso. revert H. apply hasUnit_In. vm_compute. reflexivity.
Qed.

Lemma sample_findings_filled :
  forEachCheck
    (fun f => check (negb (isEmpty (category f) || isEmpty (issue f)))
                    (js "Missing category or issue")) sampleFindings = inr tt.
Proof. vm_compute. reflexivity. Qed.

(** C6 fails on the code.  The marker pattern asks for the two escapes
    spelled out with a backslash, while the community-voice document
    holds the heading "Whakatauākī" with its two macron letters.  So for
    every session whose project name and resolved label hold no
    backslash, the marker test over the sample findings is false and
    [runSelfChecks] stops at "Unicode escape missing". *)
Theorem marker_check_fails (st : Session) :
  ~ In 0x5C (projectName st) ->
  ~ In 0x5C (inferredICMP st) ->
  markerPattern = lit (js "Whakatau" ++ u 0x5C ++ js "u0101k" ++ u 0x5C ++ js "u012B") /\
  includes (buildStandardManaWhenua st sampleFindings)
           (js "Whakatau" ++ u 0x0101 ++ js "k" ++ u 0x012B) = true /\
  test markerPattern (buildStandardManaWhenua st sampleFindings) = false /\
  runSelfChecks st sampleFindings = js "Test failure: Unicode escape missing".
Proof.
  intros Hn Hi.
  assert (Ht : test markerPattern (buildStandardManaWhenua st sampleFindings) = false).
  { destruct (test markerPattern _) eqn:E; [exfalso | reflexivity].
    unfold markerPattern in E. rewrite test_lit in E by discriminate.
    apply includes_In with (c := 0x5C) in E.
    - destruct (backslash_origin st E); contradiction.
    - vm_compute. tauto. }
  split; [reflexivity|]. split; [|split; [exact Ht|]].
  - unfold buildStandardManaWhenua.
    change (join ?sep (manaWhenuaIntro st :: ?rest))
      with (manaWhenuaIntro st ++ sep ++ join sep rest).
    apply includes_app_l. unfold manaWhenuaIntro.
    apply includes_app_r, includes_app_r.
    vm_compute. reflexivity.
  - unfold runSelfChecks, selfChecks. rewrite sample_findings_filled, Ht. reflexivity.
Qed.

Lemma marker_check_fails_witness :
  ~ In 0x5C (projectName initialSession) /\
  ~ In 0x5C (inferredICMP initialSession) /\
  test markerPattern (buildStandardManaWhenua initialSession sampleFindings) = false /\
  runSelfChecks initialSession sampleFindings = js "Test failure: Unicode escape missing".
Proof.
  assert (Hn : ~ In 0x5C (projectName initialSession))
    by (apply hasUnit_In; vm_compute; reflexivity).
  assert (Hi : ~ In 0x5C (inferredICMP initialSession))
    by (apply hasUnit_In; vm_compute; reflexivity).
  split; [exact Hn|]. split; [exact Hi|].
  destruct (marker_check_fails initialSession Hn Hi) as (_ & _ & Ht & Hr).
  split; [exact Ht | exact Hr].
Defined.

(** ** Exporter *)

Section ExportAtomicity.

Variables (JsError Blob : Type).
Variable atob : jsstring -> JsError + jsstring.
Variable toBlob : DocxDocument -> JsError + Blob.

Lemma figureBlock_eq (f : Figure) :
  figureBlock (Blob := Blob) atob f =
  match atob (payload f) with
  | inl e => ([], inl e)
  | inr bin => ([], inr (decodedFigure f bin))
  end.
Proof. unfold figureBlock, bind, call, ret. destruct (atob (payload f)); reflexivity. Qed.

(** Decoding the figures logs nothing, and either decodes them all or
    throws what [atob] threw on one of them. *)
Lemma mapM_figureBlock (figures : list Figure) :
  (exists blocks,
      mapM (Blob := Blob) (figureBlock atob) figures = ([], inr blocks) /\
      allDecoded atob figures blocks) \/
  (exists e f,
      mapM (Blob := Blob) (figureBlock atob) figures = ([], inl e) /\
      In f figures /\ atob (payload f) = inl e).
Proof.
  induction figures as [|f figures IH].
  - left. exists []. split; [reflexivity | constructor].
  - cbn [mapM]. rewrite figureBlock_eq.
    destruct (atob (payload f)) as [e|bin] eqn:Ef.
    + right. exists e, f. repeat split; [now left | exact Ef].
    + destruct IH as [(blocks & -> & Hall) | (e & g & -> & Hg & Hge)].
      * left. exists (decodedFigure f bin :: blocks). split; [reflexivity|].
        constructor; [exists bin; split; [exact Ef | reflexivity] | exact Hall].
      * right. exists e, g. repeat split; [now right | exact Hge].
Qed.

(** C4.  An export either hands over exactly one file, which is the
    packaged document holding the title, every body line and every
    figure decoded (for the monitoring plan: the header row and every
    data row), under the name derived from the title; or it hands
    over nothing, logs the error and raises the alert.  In particular
    a payload that [atob] rejects, or a packaging step that fails,
    leaves no download. *)
Theorem export_all_or_nothing :
  (forall title body figures,
      let run := exportNarrativeDocx atob toBlob title body figures in
      ((exists blocks blob,
           allDecoded atob figures blocks /\
           toBlob (narrativeDocument title body blocks) = inr blob /\
           run = ([Download (underscored title ++ js ".docx") blob], inr tt))
       \/
       (exists e,
           run = ([ConsoleError e; Alert exportFailedMessage], inr tt) /\
           downloads run = [])) /\
      (forall f e, In f figures -> atob (payload f) = inl e -> downloads run = []) /\
      (forall blocks e,
          allDecoded atob figures blocks ->
          toBlob (narrativeDocument title body blocks) = inl e -> downloads run = [])) /\
  (forall project rows,
      let run := exportMonitoringDocx toBlob project rows in
      ((exists blob,
           toBlob (monitoringDocument project rows) = inr blob /\
           run = ([Download (js "Cultural_Monitoring_Programme_" ++ underscored project
                             ++ js ".docx") blob], inr tt))
       \/
       (exists e,
           toBlob (monitoringDocument project rows) = inl e /\
           run = ([ConsoleError e; Alert exportFailedMessage], inr tt) /\
           downloads run = []))).
Proof.
  split.
  - intros title body figures run.
    assert (Hcases :
      (exists blocks blob,
          allDecoded atob figures blocks /\
          toBlob (narrativeDocument title body blocks) = inr blob /\
          run = ([Download (underscored title ++ js ".docx") blob], inr tt))
      \/ (exists e, run = ([ConsoleError e; Alert exportFailedMessage], inr tt))).
    { subst run. unfold exportNarrativeDocx.
      destruct (mapM_figureBlock figures) as [(blocks & -> & Hall) | (e & f & -> & _ & _)].
      - cbn [bind call].
        destruct (toBlob (narrativeDocument title body blocks)) as [e|blob] eqn:Eb.
        + right. exists e. reflexivity.
        + left. exists blocks, blob.
          split; [exact Hall|]. split; [exact Eb | reflexivity].
      - right. exists e. reflexivity. }
    assert (Hfail : forall e, run = ([ConsoleError e; Alert exportFailedMessage], inr tt) ->
                              downloads run = []).
    { intros e ->. reflexivity. }
    split; [|split].
    + destruct Hcases as [H | (e & He)]; [left; exact H | right; exists e; split; [exact He | exact (Hfail e He)]].
    + intros f e Hf He. subst run. unfold exportNarrativeDocx.
      destruct (mapM_figureBlock figures) as [(blocks & -> & Hall) | (e' & g & -> & _ & _)];
        [|reflexivity].
      exfalso. clear - Hall Hf He. induction Hall as [|g b gs bs (bin & Hg & _) _ IH].
      * destruct Hf.
      * destruct Hf as [<-|Hf]; [congruence | exact (IH Hf)].
    + intros blocks e Hall He. subst run. unfold exportNarrativeDocx.
      destruct (mapM_figureBlock figures) as [(blocks' & -> & Hall') | (e' & g & -> & _ & _)];
        [|reflexivity].
      assert (blocks' = blocks) as ->.
      { clear - Hall Hall'. revert blocks' Hall'.
        induction Hall as [|g b gs bs (bin & Hg & ->) _ IH]; intros blocks' Hall';
          inversion Hall' as [|? b' ? bs' (bin' & Hg' & Hb') Hrest]; subst; [reflexivity|].
        rewrite Hg in Hg'. inversion Hg'; subst. f_equal. exact (IH _ Hrest). }
      cbn [bind call]. rewrite He. reflexivity.
  - intros project rows run. subst run. unfold exportMonitoringDocx. cbn [bind call].
    destruct (toBlob (monitoringDocument project rows)) as [e|blob] eqn:Eb.
    + right. exists e. split; [reflexivity|]. split; reflexivity.
    + left. exists blob. split; reflexivity.
Qed.

End ExportAtomicity.

(** A figure whose payload [atob] rejects stops the export before any
    file is handed over; without it the same export delivers one
    file. *)
Lemma export_all_or_nothing_witness :
  In brokenFigure (selectedFigures initialSession ++ [brokenFigure]) /\
  strictAtob (payload brokenFigure) = inl (js "InvalidCharacterError") /\
  downloads (exportNarrativeDocx strictAtob idlePackager (js "CIA_Mana_Whenua")
               (buildStandardManaWhenua initialSession sampleFindings)
               (selectedFigures initialSession ++ [brokenFigure])) = [] /\
  List.length (downloads (exportNarrativeDocx strictAtob idlePackager (js "CIA_Mana_Whenua")
                            (buildStandardManaWhenua initialSession sampleFindings)
                            (selectedFigures initialSession))) = 1%nat.
Proof.
  assert (Hin : In brokenFigure (selectedFigures initialSession ++ [brokenFigure]))
    by (apply in_or_app; right; left; reflexivity).
  assert (Hbad : strictAtob (payload brokenFigure) = inl (js "InvalidCharacterError"))
    by (vm_compute; reflexivity).
  split; [exact Hin|]. split; [exact Hbad|].
  split; [|vm_compute; reflexivity].
  destruct (export_all_or_nothing jsstring DocxDocument strictAtob idlePackager) as [Hnarrative _].
  destruct (Hnarrative (js "CIA_Mana_Whenua")
              (buildStandardManaWhenua initialSession sampleFindings)
              (selectedFigures initialSession ++ [brokenFigure])) as (_ & Hdecode & _).
  exact (Hdecode brokenFigure _ Hin Hbad).
Defined.

(** ** Text normalizer *)

















Lemma orElse_Some_nil (s : jsstring) : orElse (Some s) [] = s.
Proof. destruct s; reflexivity. Qed.





(* ================================================================== *)
(** * Further properties *)
(* ================================================================== *)

(** ** Classifier *)

Lemma inferICMP_first_label (location : option jsstring) (c : jsstring) :
  hd_error (inferICMPMatches location c) = Some (inferICMP location c).
Proof.
  rewrite inferICMPMatches_eq, inferICMP_eq, find_filter_hd.
  destruct (filter _ (dictionaryOf c)); reflexivity.
Qed.

(** [inferICMP] and the handler never disagree: [inferICMP] returns
    the first label of [inferICMPMatches]; when the handler resolves
    the label at once it is [inferICMP]'s label, and when it opens the
    chooser the preselected option is [inferICMP]'s label. *)
Theorem handler_agrees_with_inferICMP (st : Session) :
  let label := inferICMP (Some (projectLocation st)) (council st) in
  let st' := handleAutoDetectICMP st in
  hd_error (inferICMPMatches (Some (projectLocation st)) (council st)) = Some label /\
  (showIcmpModal st' = false -> inferredICMP st' = label /\ icmpOptions st' = []) /\
  (showIcmpModal st' = true ->
   icmpTemp st' = label /\ inferredICMP st' = inferredICMP st /\
   icmpOptions st' = inferICMPMatches (Some (projectLocation st)) (council st)).
Proof.
  intros label st'. split; [apply inferICMP_first_label|].
  destruct (Nat.leb (List.length (candidates (projectLocation st) (council st))) 1) eqn:E.
  - apply Nat.leb_le in E.
    destruct (handleAutoDetectICMP_resolved st E) as (Hl & Hm & Ho).
    subst st' label. rewrite Hm. split; [intros _; split; assumption | discriminate].
  - assert (Hlen : (2 <= List.length (candidates (projectLocation st) (council st)))%nat).
    { destruct (Nat.leb_spec (List.length (candidates (projectLocation st) (council st))) 1);
        [discriminate | lia]. }
    pose proof (candidates_named (projectLocation st) (council st)) as Hnamed.
    pose proof (inferICMP_first_label (Some (projectLocation st)) (council st)) as Hhd.
    fold label in Hhd. clearbody label. subst st'. unfold handleAutoDetectICMP.
    rewrite inferICMPMatches_eq in *. fold (candidates (projectLocation st) (council st)) in *.
    destruct (candidates (projectLocation st) (council st)) as [|a [|b cs]];
      simpl in Hlen; try lia.
    inversion Hnamed as [|? ? Ha _]; subst. simpl in Hhd. injection Hhd as Hlabel.
    destruct a as [|x a]; [congruence|]. subst label.
    split; [discriminate|]. intros _. repeat split; reflexivity.
Qed.

Lemma handler_agrees_with_inferICMP_witness :
  showIcmpModal (handleAutoDetectICMP twoRegionSession) = true /\
  icmpTemp (handleAutoDetectICMP twoRegionSession)
  = inferICMP (Some (projectLocation twoRegionSession)) (council twoRegionSession) /\
  showIcmpModal (handleAutoDetectICMP initialSession) = false /\
  inferredICMP (handleAutoDetectICMP initialSession)
  = inferICMP (Some (projectLocation initialSession)) (council initialSession).
Proof.
  assert (H1 : showIcmpModal (handleAutoDetectICMP twoRegionSession) = true)
    by (vm_compute; reflexivity).
  assert (H2 : showIcmpModal (handleAutoDetectICMP initialSession) = false)
    by (vm_compute; reflexivity).
  split; [exact H1|].
  split; [exact (proj1 (proj2 (proj2 (handler_agrees_with_inferICMP twoRegionSession)) H1))|].
  split; [exact H2|].
  exact (proj1 (proj1 (proj2 (handler_agrees_with_inferICMP initialSession)) H2)).
Defined.

Lemma distinct_NoDup (l : list jsstring) : distinct l = true -> NoDup l.
Proof.
  induction l as [|x l IH]; simpl; intros H; constructor.
  - apply andb_true_iff in H as [H _]. intros Hin.
    assert (Ht : existsb (streq x) l = true).
    { apply existsb_exists. exists x. split; [exact Hin | apply streq_refl]. }
    rewrite Ht in H. discriminate.
  - apply andb_true_iff in H as [_ H]. now apply IH.
Qed.

Lemma NoDup_map_filter {A B : Type} (g : A -> B) (f : A -> bool) (l : list A) :
  NoDup (map g l) -> NoDup (map g (filter f l)).
Proof.
  induction l as [|a l IH]; simpl; intros H; [constructor|].
  inversion H as [|? ? Hnotin Hnd]; subst.
  destruct (f a); simpl; [constructor|]; auto.
  intros Hin. apply Hnotin. apply in_map_iff in Hin as (b & Hb & Hin).
  apply filter_In in Hin as [Hin _]. apply in_map_iff. now exists b.
Qed.

Lemma existsb_streq_In (x : jsstring) (l : list jsstring) :
  existsb (streq x) l = false -> ~ In x l.
Proof.
  intros H Hin.
  assert (Ht : existsb (streq x) l = true).
  { apply existsb_exists. exists x. split; [exact Hin | apply streq_refl]. }
  congruence.
Qed.

Lemma dictionary_names_distinct (c : jsstring) :
  NoDup (map name (dictionaryOf c)) /\ ~ In (councilFallback c) (map name (dictionaryOf c)).
Proof.
  unfold dictionaryOf, councilFallback.
  destruct (streq c HamiltonCityCouncil); split;
    try (apply distinct_NoDup; vm_compute; reflexivity);
    apply existsb_streq_In; vm_compute; reflexivity.
Qed.

Lemma inferICMPMatches_labels (location : option jsstring) (c : jsstring) (l : jsstring) :
  In l (inferICMPMatches location c) ->
  (In l (map name (dictionaryOf c)) /\
   In l (map name (filter (areaMatches (normalizeForMatch location)) (dictionaryOf c))))
  \/ (l = councilFallback c /\
      filter (areaMatches (normalizeForMatch location)) (dictionaryOf c) = []).
Proof.
  rewrite inferICMPMatches_eq.
  destruct (filter _ (dictionaryOf c)) as [|r rs] eqn:E.
  - simpl. intros [<-|[]]. right. split; reflexivity.
  - intros Hin. left. split; [|exact Hin].
    change (In l (map name (r :: rs))) in Hin. rewrite <- E in Hin.
    apply in_map_iff in Hin as (a & <- & Ha). apply filter_In in Ha as [Ha _].
    now apply in_map.
Qed.

(** The labels [inferICMPMatches] returns are pairwise different, are
    at most as many as the council's dictionary has Regions (and at
    least one), and each is the name of a Region of that dictionary,
    or the council's fallback; the fallback is returned exactly when
    no Region matches. *)
Theorem candidates_from_dictionary (location : option jsstring) (c : jsstring) :
  NoDup (inferICMPMatches location c) /\
  (1 <= List.length (inferICMPMatches location c) <= List.length (dictionaryOf c))%nat /\
  (forall l, In l (inferICMPMatches location c) ->
             In l (map name (dictionaryOf c)) \/ l = councilFallback c) /\
  (In (councilFallback c) (inferICMPMatches location c) <->
   filter (areaMatches (normalizeForMatch location)) (dictionaryOf c) = []).
Proof.
  destruct (dictionary_names_distinct c) as [Hnd Hfb].
  assert (Hdict : (1 <= List.length (dictionaryOf c))%nat).
  { unfold dictionaryOf. destruct (streq c HamiltonCityCouncil); simpl; lia. }
  split; [|split; [|split]].
  - rewrite inferICMPMatches_eq.
    pose proof (NoDup_map_filter name (areaMatches (normalizeForMatch location)) _ Hnd) as H.
    destruct (map name (filter _ (dictionaryOf c))); [repeat constructor; intros [] | exact H].
  - rewrite inferICMPMatches_eq.
    pose proof (filter_length_le (areaMatches (normalizeForMatch location)) (dictionaryOf c)) as H.
    rewrite <- (length_map name) in H.
    destruct (map name (filter _ (dictionaryOf c))); simpl in *; lia.
  - intros l Hl. destruct (inferICMPMatches_labels location c l Hl) as [[H _]|[H _]]; auto.
  - split.
    + intros Hin. destruct (inferICMPMatches_labels location c _ Hin) as [[H _]|[_ H]];
        [contradiction | exact H].
    + intros H. rewrite inferICMPMatches_eq, H. now left.
Qed.

Lemma candidates_from_dictionary_witness :
  In (js "Mangakotukutuku ICMP")
     (inferICMPMatches (Some (js "Frankton, near Glenview")) HamiltonCityCouncil) /\
  (In (js "Mangakotukutuku ICMP") (map name (dictionaryOf HamiltonCityCouncil))
   \/ js "Mangakotukutuku ICMP" = councilFallback HamiltonCityCouncil).
Proof.
  assert (H : In (js "Mangakotukutuku ICMP")
                (inferICMPMatches (Some (js "Frankton, near Glenview")) HamiltonCityCouncil))
    by (vm_compute; right; left; reflexivity).
  split; [exact H|].
  exact (proj1 (proj2 (proj2 (candidates_from_dictionary
                                (Some (js "Frankton, near Glenview")) HamiltonCityCouncil))) _ H).
Defined.

(** ** Monitoring plan deriver *)



(** ** File names *)

Lemma replaceSpaceRuns_notSpace (inRun : bool) (s : jsstring) :
  forallb notSpace (replaceSpaceRuns inRun s) = true.
Proof.
  revert inRun. induction s as [|c s IH]; intros inRun; simpl; [reflexivity|].
  destruct (isSpace c) eqn:E.
  - rewrite forallb_app, IH. destruct inRun; reflexivity.
  - simpl. unfold notSpace at 1. now rewrite E, IH.
Qed.

Lemma replaceSpaceRuns_id (inRun : bool) (s : jsstring) :
  forallb notSpace s = true -> replaceSpaceRuns inRun s = s.
Proof.
  revert inRun. induction s as [|c s IH]; intros inRun; simpl; [reflexivity|].
  intros H. apply andb_true_iff in H as [Hc Hs].
  unfold notSpace in Hc. apply negb_true_iff in Hc. now rewrite Hc, IH.
Qed.

Lemma replaceSpaceRuns_length (inRun : bool) (s : jsstring) :
  (List.length (replaceSpaceRuns inRun s) <= List.length s)%nat.
Proof.
  revert inRun. induction s as [|c s IH]; intros inRun; simpl; [lia|].
  destruct (isSpace c).
  - rewrite length_app. specialize (IH true). destruct inRun; simpl; lia.
  - simpl. specialize (IH false). lia.
Qed.

(** [replace(/\s+/g, "_")] leaves no white space in a name, never
    makes it longer, changes nothing in a name without white space and
    so changes nothing when applied twice; and every file either
    exporter hands over has a name without white space. *)
Theorem file_names_have_no_white_space :
  (forall s,
      forallb notSpace (underscored s) = true /\
      (List.length (underscored s) <= List.length s)%nat /\
      underscored (underscored s) = underscored s /\
      (forallb notSpace s = true -> underscored s = s)) /\
  (forall (JsError Blob : Type) (atob : jsstring -> JsError + jsstring)
          (toBlob : DocxDocument -> JsError + Blob) title body figures n,
      In n (downloadNames (exportNarrativeDocx atob toBlob title body figures)) ->
      n = underscored title ++ js ".docx" /\ forallb notSpace n = true) /\
  (forall (JsError Blob : Type) (toBlob : DocxDocument -> JsError + Blob) project rows n,
      In n (downloadNames (exportMonitoringDocx toBlob project rows)) ->
      n = js "Cultural_Monitoring_Programme_" ++ underscored project ++ js ".docx" /\
      forallb notSpace n = true).
Proof.
  split; [|split].
  - intros s. unfold underscored.
    split; [apply replaceSpaceRuns_notSpace|]. split; [apply replaceSpaceRuns_length|].
    split; [apply replaceSpaceRuns_id, replaceSpaceRuns_notSpace | apply replaceSpaceRuns_id].
  - intros JsError Blob atob toBlob title body figures n.
    assert (Hname : forallb notSpace (underscored title ++ js ".docx") = true).
    { rewrite forallb_app. unfold underscored. rewrite replaceSpaceRuns_notSpace. reflexivity. }
    unfold exportNarrativeDocx.
    destruct (mapM_figureBlock JsError Blob atob figures)
      as [(blocks & -> & _) | (e & f & -> & _ & _)].
    + cbn [bind call]. destruct (toBlob (narrativeDocument title body blocks)).
      * intros [].
      * intros [<-|[]]. split; [reflexivity | exact Hname].
    + intros [].
  - intros JsError Blob toBlob project rows n.
    assert (Hname : forallb notSpace (js "Cultural_Monitoring_Programme_"
                                      ++ underscored project ++ js ".docx") = true).
    { rewrite !forallb_app. unfold underscored. rewrite replaceSpaceRuns_notSpace. reflexivity. }
    unfold exportMonitoringDocx. cbn [bind call].
    destruct (toBlob (monitoringDocument project rows)).
    + intros [].
    + intros [<-|[]]. split; [reflexivity | exact Hname].
Qed.

Lemma file_names_have_no_white_space_witness :
  forallb notSpace (js "Stage_2") = true /\
  underscored (js "Stage_2") = js "Stage_2" /\
  underscored (js "Te Awa  Industrial Upgrade - Stage 2") = js "Te_Awa_Industrial_Upgrade_-_Stage_2" /\
  In (js "CIA_Mana_Whenua.docx")
     (downloadNames (exportNarrativeDocx strictAtob idlePackager (js "CIA Mana Whenua")
                       (js "body") (selectedFigures initialSession))) /\
  forallb notSpace (js "CIA_Mana_Whenua.docx") = true.
Proof.
  assert (H : forallb notSpace (js "Stage_2") = true) by (vm_compute; reflexivity).
  assert (Hin : In (js "CIA_Mana_Whenua.docx")
                  (downloadNames (exportNarrativeDocx strictAtob idlePackager (js "CIA Mana Whenua")
                                    (js "body") (selectedFigures initialSession))))
    by (vm_compute; left; reflexivity).
  destruct file_names_have_no_white_space as (Hs & Hn & _).
  split; [exact H|]. split; [exact (proj2 (proj2 (proj2 (Hs _))) H)|].
  split; [vm_compute; reflexivity|]. split; [exact Hin|].
  exact (proj2 (Hn _ _ _ _ _ _ _ _ Hin)).
Defined.

(** ** Text normalizer *)






(** ** Patterns *)

Lemma matchesAt_alt (r1 r2 : regex) (prev : option N) (s : jsstring) :
  matchesAt (Alt r1 r2) prev s = matchesAt r1 prev s || matchesAt r2 prev s.
Proof.
  unfold matchesAt. cbn [matchAt].
  destruct (matchAt r1 prev s); [destruct (matchAt r2 prev s)|]; reflexivity.
Qed.

Lemma testFrom_alt (r1 r2 : regex) (prev : option N) (s : jsstring) :
  testFrom (Alt r1 r2) prev s = testFrom r1 prev s || testFrom r2 prev s.
Proof.
  revert prev. induction s as [|c s IH]; intros prev; simpl; rewrite matchesAt_alt.
  - now rewrite !orb_false_r.
  - rewrite IH.
    destruct (matchesAt r1 prev (c :: s)), (matchesAt r2 prev (c :: s)),
      (testFrom r1 (Some c) s), (testFrom r2 (Some c) s); reflexivity.
Qed.

Lemma test_alts (r : regex) (rs : list regex) (s : jsstring) :
  test (alts r rs) s = existsb (fun r' => test r' s) (r :: rs).
Proof.
  unfold test. revert r. induction rs as [|r' rs IH]; intros r; cbn [alts existsb].
  - now rewrite orb_false_r.
  - rewrite testFrom_alt, IH. reflexivity.
Qed.

Lemma startsWith_skipn (p s : jsstring) :
  startsWith p s = true -> s = p ++ skipn (List.length p) s.
Proof.
  revert s. induction p as [|x p IH]; intros s H; [reflexivity|].
  destruct s as [|y s]; [discriminate|]. simpl in H.
  apply andb_true_iff in H as [Hxy H]. apply N.eqb_eq in Hxy. subst y.
  simpl. f_equal. now apply IH.
Qed.

Lemma skipn_length_app (p s : jsstring) : skipn (List.length p) (p ++ s) = s.
Proof. induction p as [|x p IH]; [reflexivity | exact IH]. Qed.

Lemma matchAt_lit (p : jsstring) (prev : option N) (s : jsstring) :
  p <> [] ->
  matchAt (lit p) prev s =
  if startsWith p s then [(Some (last p 0), skipn (List.length p) s)] else [].
Proof.
  revert prev s. induction p as [|c p IH]; intros prev s Hp; [congruence|].
  destruct p as [|c' p'].
  - simpl. destruct s as [|d s]; [reflexivity|].
    destruct (N.eqb_spec c d) as [->|]; reflexivity.
  - assert (Hp' : c' :: p' <> []) by discriminate.
    change (lit (c :: c' :: p')) with (Seq (Chr c) (lit (c' :: p'))).
    cbn [matchAt startsWith].
    destruct s as [|d s]; [reflexivity|].
    destruct (c =? d); [|reflexivity].
    cbn [flat_map fst snd andb]. rewrite app_nil_r, (IH (Some d) s Hp').
    reflexivity.
Qed.

Lemma startsWith_word_hd (w s : jsstring) :
  w <> [] -> forallb isWordChar w = true -> startsWith w s = true ->
  isWordCharAt (hd_error s) = true /\ isWordChar (last w 0) = true.
Proof.
  intros Hw Hall Hsw. split.
  - destruct w as [|x w]; [congruence|]. destruct s as [|y s]; [discriminate|].
    simpl in *. apply andb_true_iff in Hsw as [Hxy _]. apply N.eqb_eq in Hxy. subst y.
    now apply andb_true_iff in Hall as [Hx _].
  - rewrite forallb_forall in Hall. apply Hall.
    destruct w as [|x w]; [congruence|].
    pose proof (@exists_last _ (x :: w) Hw) as (w' & z & E). rewrite E.
    rewrite last_last. apply in_or_app. right. now left.
Qed.

(** One position of [\bw\b], for a [w] of word characters: [w] starts
    here, no word character stands before it and none after it. *)
Lemma matchesAt_word (w : string) (prev : option N) (s : jsstring) :
  js w <> [] -> forallb isWordChar (js w) = true ->
  matchesAt (word w) prev s =
  negb (isWordCharAt prev) && startsWith (js w) s
  && negb (isWordCharAt (hd_error (skipn (List.length (js w)) s))).
Proof.
  intros Hw Hall. unfold matchesAt, word. cbn [matchAt].
  destruct (startsWith (js w) s) eqn:Hsw.
  - destruct (startsWith_word_hd (js w) s Hw Hall Hsw) as [Hhd Hlast].
    rewrite Hhd, xorb_true_r.
    destruct (isWordCharAt prev); cbn [negb flat_map fst snd andb app]; [reflexivity|].
    rewrite (matchAt_lit (js w) prev s Hw), Hsw.
    cbn [flat_map fst snd app isWordCharAt]. rewrite Hlast, xorb_true_l.
    destruct (isWordCharAt (hd_error (skipn (List.length (js w)) s))); reflexivity.
  - rewrite andb_false_r.
    destruct (xorb (isWordCharAt prev) (isWordCharAt (hd_error s)));
      cbn [flat_map fst snd app]; [|reflexivity].
    rewrite (matchAt_lit (js w) prev s Hw), Hsw. reflexivity.
Qed.

Lemma occursAsWord_spec (w : jsstring) (prev : option N) (s : jsstring) :
  occursAsWordFrom w prev s = true <->
  exists a b, s = a ++ w ++ b /\
              isWordCharAt (lastUnit prev a) = false /\
              isWordCharAt (hd_error b) = false.
Proof.
  split.
  - revert prev. induction s as [|c s IH]; intros prev H; simpl in H.
    + rewrite orb_false_r in H.
      apply andb_true_iff in H as [H Hb]. apply andb_true_iff in H as [Ha Hsw].
      exists [], (skipn (List.length w) []).
      split; [exact (startsWith_skipn w [] Hsw)|].
      split; [now apply negb_true_iff in Ha | now apply negb_true_iff in Hb].
    + apply orb_true_iff in H as [H|H].
      * apply andb_true_iff in H as [H Hb]. apply andb_true_iff in H as [Ha Hsw].
        exists [], (skipn (List.length w) (c :: s)).
        split; [exact (startsWith_skipn w (c :: s) Hsw)|].
        split; [now apply negb_true_iff in Ha | now apply negb_true_iff in Hb].
      * destruct (IH (Some c) H) as (a & b & -> & Ha & Hb).
        exists (c :: a), b. repeat split; assumption.
  - intros (a & b & -> & Ha & Hb). revert prev Ha.
    induction a as [|c a IH]; intros prev Ha.
    + simpl in Ha. cbn [app].
      assert (H1 : negb (isWordCharAt prev) && startsWith w (w ++ b)
                   && negb (isWordCharAt (hd_error (skipn (List.length w) (w ++ b)))) = true).
      { rewrite startsWith_app, skipn_length_app, Ha, Hb. reflexivity. }
      destruct (w ++ b); simpl; rewrite H1; reflexivity.
    + cbn [app occursAsWordFrom]. rewrite (IH (Some c) Ha). apply orb_true_r.
Qed.

Lemma testFrom_word (w : string) (prev : option N) (s : jsstring) :
  js w <> [] -> forallb isWordChar (js w) = true ->
  testFrom (word w) prev s = occursAsWordFrom (js w) prev s.
Proof.
  intros Hw Hall. revert prev.
  induction s as [|c s IH]; intros prev; simpl; rewrite (matchesAt_word w prev _ Hw Hall).
  - reflexivity.
  - now rewrite IH.
Qed.

(** ** Regions and their patterns *)

Lemma NoDup_map_inj {A B : Type} (g : A -> B) (l : list A) (a b : A) :
  NoDup (map g l) -> In a l -> In b l -> g a = g b -> a = b.
Proof.
  induction l as [|x l IH]; simpl; intros Hnd Ha Hb Hg; [destruct Ha|].
  inversion Hnd as [|? ? Hnotin Hnd']; subst.
  destruct Ha as [->|Ha], Hb as [->|Hb]; auto.
  - exfalso. apply Hnotin. rewrite Hg. now apply in_map.
  - exfalso. apply Hnotin. rewrite <- Hg. now apply in_map.
Qed.

Lemma candidate_iff_region_matches (location : option jsstring) (c : jsstring) (r : Region) :
  In r (dictionaryOf c) ->
  (In (name r) (inferICMPMatches location c) <->
   areaMatches (normalizeForMatch location) r = true).
Proof.
  intros Hr. destruct (dictionary_names_distinct c) as [Hnd Hfb]. split.
  - intros Hin. destruct (inferICMPMatches_labels location c _ Hin) as [[_ H]|[H _]].
    + apply in_map_iff in H as (r' & Hname & Hr').
      apply filter_In in Hr' as [Hr' Hm].
      now rewrite <- (NoDup_map_inj name _ r' r Hnd Hr' Hr Hname).
    + exfalso. apply Hfb. rewrite <- H. now apply in_map.
  - intros Hm. rewrite inferICMPMatches_eq.
    assert (Hin : In (name r) (map name (filter (areaMatches (normalizeForMatch location))
                                          (dictionaryOf c)))).
    { apply in_map, filter_In. split; assumption. }
    destruct (map name (filter _ (dictionaryOf c))); [destruct Hin | exact Hin].
Qed.

Lemma find_first {A : Type} (f : A -> bool) (l1 l2 : list A) (a : A) :
  (forall b, In b l1 -> f b = false) -> f a = true -> find f (l1 ++ a :: l2) = Some a.
Proof.
  induction l1 as [|x l1 IH]; simpl; intros Hl1 Ha; [now rewrite Ha|].
  rewrite (Hl1 x (or_introl eq_refl)). apply IH; auto.
Qed.

(** A Region's name is among the candidates exactly when one of its
    patterns matches the normalized location, and the dictionary order
    is the priority order of [inferICMP]: a matching Region with no
    matching Region declared before it is the label. *)
Theorem region_matches_iff_candidate (location : option jsstring) (c : jsstring) (r : Region) :
  In r (dictionaryOf c) ->
  (In (name r) (inferICMPMatches location c) <->
   areaMatches (normalizeForMatch location) r = true) /\
  (forall before after,
      dictionaryOf c = before ++ r :: after ->
      areaMatches (normalizeForMatch location) r = true ->
      (forall r', In r' before -> areaMatches (normalizeForMatch location) r' = false) ->
      inferICMP location c = name r) /\
  (inferICMP location c = name r -> areaMatches (normalizeForMatch location) r = true).
Proof.
  intros Hr. split; [exact (candidate_iff_region_matches location c r Hr)|]. split.
  - intros before after Hd Hm Hbefore.
    rewrite inferICMP_eq, Hd, (find_first _ before after r Hbefore Hm). reflexivity.
  - intros Hlabel. apply (candidate_iff_region_matches location c r Hr).
    pose proof (inferICMP_first_label location c) as Hhd. rewrite Hlabel in Hhd.
    destruct (inferICMPMatches location c); [discriminate|].
    inversion Hhd. now left.
Qed.

Lemma region_matches_iff_candidate_witness :
  In (name (Build_Region (js "Rotokauri ICMP") [word "rotokauri"]))
     (inferICMPMatches (Some (js "Rotokauri Road")) HamiltonCityCouncil) /\
  inferICMP (Some (js "Rotokauri Road")) HamiltonCityCouncil = js "Rotokauri ICMP".
Proof.
  set (r := Build_Region (js "Rotokauri ICMP") [word "rotokauri"]).
  assert (Hr : In r (dictionaryOf HamiltonCityCouncil)) by (right; left; reflexivity).
  assert (Hm : areaMatches (normalizeForMatch (Some (js "Rotokauri Road"))) r = true)
    by (vm_compute; reflexivity).
  destruct (region_matches_iff_candidate (Some (js "Rotokauri Road")) HamiltonCityCouncil r Hr)
    as (Hiff & Hfirst & _).
  split; [exact (proj2 Hiff Hm)|].
  apply (Hfirst [Build_Region (js "Peacocke ICMP") [alts (word "peacocke") [word "peacocks"]]]
                (skipn 2 HCC_ICMPS)); [reflexivity | exact Hm|].
  intros r' [<-|[]]. vm_compute. reflexivity.
Defined.

(** [\bw\b], for a [w] of word characters, matches exactly when [w]
    occurs in the text with no letter, digit or underscore directly
    before it or after it; so "Rotokauri ICMP" is a candidate exactly
    when the normalized location holds "rotokauri" as a whole word. *)
Theorem whole_word_patterns :
  (forall (w : string) (s : jsstring),
      js w <> [] -> forallb isWordChar (js w) = true ->
      (test (word w) s = true <->
       exists a b, s = a ++ js w ++ b /\
                   isWordCharAt (lastUnit None a) = false /\
                   isWordCharAt (hd_error b) = false)) /\
  (forall location,
      In (js "Rotokauri ICMP") (inferICMPMatches location HamiltonCityCouncil) <->
      exists a b, normalizeForMatch location = a ++ js "rotokauri" ++ b /\
                  isWordCharAt (lastUnit None a) = false /\
                  isWordCharAt (hd_error b) = false).
Proof.
  assert (Hgen : forall (w : string) (s : jsstring),
             js w <> [] -> forallb isWordChar (js w) = true ->
             (test (word w) s = true <->
              exists a b, s = a ++ js w ++ b /\
                          isWordCharAt (lastUnit None a) = false /\
                          isWordCharAt (hd_error b) = false)).
  { intros w s Hw Hall. unfold test. rewrite (testFrom_word w None s Hw Hall).
    apply occursAsWord_spec. }
  split; [exact Hgen|].
  intros location.
  set (r := Build_Region (js "Rotokauri ICMP") [word "rotokauri"]).
  assert (Hr : In r (dictionaryOf HamiltonCityCouncil)) by (right; left; reflexivity).
  change (js "Rotokauri ICMP") with (name r).
  rewrite (candidate_iff_region_matches location HamiltonCityCouncil r Hr).
  unfold areaMatches, r. cbn [patterns existsb]. rewrite orb_false_r.
  apply Hgen; [discriminate | reflexivity].
Qed.

Lemma whole_word_patterns_witness :
  js "huntly" <> [] /\ forallb isWordChar (js "huntly") = true /\
  test (word "huntly") (js "12 huntly west") = true /\
  test (word "huntly") (js "huntlyville") = false.
Proof.
  assert (H1 : js "huntly" <> []) by discriminate.
  assert (H2 : forallb isWordChar (js "huntly") = true) by reflexivity.
  split; [exact H1|]. split; [exact H2|]. split.
  - apply (proj1 whole_word_patterns "huntly"%string _ H1 H2).
    exists (js "12 "), (js " west"). repeat split.
  - destruct (test (word "huntly") (js "huntlyville")) eqn:E; [exfalso | reflexivity].
    apply (proj1 whole_word_patterns "huntly"%string _ H1 H2) in E.
    destruct E as (a & b & Hs & Ha & Hb).
    destruct a as [|x a].
    + simpl in Hs. injection Hs as <-. discriminate Hb.
    + revert Hs. vm_compute.
      repeat (let H := fresh in intros H; injection H as ? H; subst;
              try (destruct a as [|? a]; [discriminate|]); revert H).
      intros H. destruct a; discriminate.
Defined.

(** The Regions without [\b] match by plain inclusion: "Mangakotukutuku
    ICMP" is a candidate exactly when the normalized location includes
    one of its seven keywords, wherever it stands (inside a longer word
    too), so text added around a matching location keeps the match. *)
Theorem keyword_regions_match_anywhere (location : option jsstring) :
  let keywords := [js "mangakotukutuku"; js "glenview"; js "melville"; js "fitzroy";
                   js "bader"; js "kahikatea"; js "ohaupo"] in
  (In (js "Mangakotukutuku ICMP") (inferICMPMatches location HamiltonCityCouncil) <->
   existsb (includes (normalizeForMatch location)) keywords = true) /\
  (forall k a b,
      In k keywords -> normalizeForMatch location = a ++ k ++ b ->
      In (js "Mangakotukutuku ICMP") (inferICMPMatches location HamiltonCityCouncil)).
Proof.
  intros keywords.
  assert (Hiff : In (js "Mangakotukutuku ICMP") (inferICMPMatches location HamiltonCityCouncil) <->
                 existsb (includes (normalizeForMatch location)) keywords = true).
  { set (r := Build_Region (js "Mangakotukutuku ICMP")
                [alts (lit (js "mangakotukutuku"))
                      [lit (js "glenview"); lit (js "melville"); lit (js "fitzroy");
                       lit (js "bader"); lit (js "kahikatea"); lit (js "ohaupo")]]).
    assert (Hr : In r (dictionaryOf HamiltonCityCouncil)) by (do 6 right; left; reflexivity).
    change (js "Mangakotukutuku ICMP") with (name r).
    rewrite (candidate_iff_region_matches location HamiltonCityCouncil r Hr).
    unfold areaMatches, r. cbn [patterns existsb]. rewrite orb_false_r, test_alts.
    subst keywords. cbn [existsb]. rewrite !test_lit by discriminate. reflexivity. }
  split; [exact Hiff|].
  intros k a b Hk Hn. apply Hiff. apply existsb_exists. exists k. split; [exact Hk|].
  rewrite Hn. apply includes_app.
Qed.

Lemma keyword_regions_match_anywhere_witness :
  In (js "bader") [js "mangakotukutuku"; js "glenview"; js "melville"; js "fitzroy";
                   js "bader"; js "kahikatea"; js "ohaupo"] /\
  normalizeForMatch (Some (js "Baderville East")) = js "" ++ js "bader" ++ js "ville east" /\
  In (js "Mangakotukutuku ICMP")
     (inferICMPMatches (Some (js "Baderville East")) HamiltonCityCouncil).
Proof.
  assert (Hk : In (js "bader") [js "mangakotukutuku"; js "glenview"; js "melville";
                                js "fitzroy"; js "bader"; js "kahikatea"; js "ohaupo"])
    by (do 4 right; left; reflexivity).
  assert (Hn : normalizeForMatch (Some (js "Baderville East"))
               = js "" ++ js "bader" ++ js "ville east") by (vm_compute; reflexivity).
  split; [exact Hk|]. split; [exact Hn|].
  exact (proj2 (keyword_regions_match_anywhere (Some (js "Baderville East"))) _ _ _ Hk Hn).
Defined.



(** ** Session *)

Lemma dictionary_names_known (c : jsstring) (l : jsstring) :
  In l (map name (dictionaryOf c)) -> In l regionNames.
Proof.
  unfold dictionaryOf, regionNames. intros H. apply in_or_app.
  destruct (streq c HamiltonCityCouncil); [left | right]; exact H.
Qed.

Lemma councilFallback_known (c : jsstring) : In (councilFallback c) knownLabels.
Proof.
  unfold councilFallback, knownLabels.
  destruct (streq c HamiltonCityCouncil); [right; left | right; right; left]; reflexivity.
Qed.

Lemma regionNames_known (l : jsstring) : In l regionNames -> In l knownLabels.
Proof. intros H. unfold knownLabels. do 3 right. exact H. Qed.

Lemma inferICMP_known (location : option jsstring) (c : jsstring) :
  In (inferICMP location c) knownLabels.
Proof.
  pose proof (inferICMP_first_label location c) as Hhd.
  assert (Hin : In (inferICMP location c) (inferICMPMatches location c)).
  { destruct (inferICMPMatches location c); [discriminate|]. inversion Hhd. now left. }
  destruct (inferICMPMatches_labels location c _ Hin) as [[H _]|[-> _]].
  - apply regionNames_known, (dictionary_names_known c), H.
  - apply councilFallback_known.
Qed.

Lemma toggleFigure_source (figId : jsstring) (checked : bool) (prev : list Figure) :
  map figureSource (toggleFigure figId checked prev) = map figureSource prev.
Proof.
  unfold toggleFigure. rewrite map_map. apply map_ext.
  intros g. destruct (streq (id g) figId); reflexivity.
Qed.

Lemma handleAutoDetectICMP_keeps (st : Session) :
  council (handleAutoDetectICMP st) = council st /\
  includeHPMO (handleAutoDetectICMP st) = includeHPMO st /\
  figureGallery (handleAutoDetectICMP st) = figureGallery st /\
  projectName (handleAutoDetectICMP st) = projectName st /\
  projectLocation (handleAutoDetectICMP st) = projectLocation st.
Proof. unfold handleAutoDetectICMP. destruct (Nat.leb _ 1); repeat split. Qed.

Lemma handleAutoDetectICMP_invariant (st : Session) :
  sessionInvariant st -> sessionInvariant (handleAutoDetectICMP st).
Proof.
  intros [Hc Hh Hl Ho Hcl Hop Hg].
  destruct (Nat.leb (List.length (candidates (projectLocation st) (council st))) 1) eqn:E.
  - apply Nat.leb_le in E.
    destruct (handleAutoDetectICMP_resolved st E) as (Hlabel & Hmodal & Hopts).
    destruct (handleAutoDetectICMP_keeps st) as (Kc & Kh & Kg & _).
    constructor; try rewrite Hmodal; try rewrite Hopts; try rewrite Hlabel;
      try rewrite Kc; try rewrite Kh; try rewrite Kg;
      try discriminate; try (intros ? []); try reflexivity.
    + exact Hc.
    + exact Hh.
    + apply inferICMP_known.
    + exact Hg.
  - assert (Hlen : (2 <= List.length (candidates (projectLocation st) (council st)))%nat).
    { destruct (Nat.leb_spec (List.length (candidates (projectLocation st) (council st))) 1);
        [discriminate | lia]. }
    pose proof (candidates_named (projectLocation st) (council st)) as Hnamed.
    assert (Hsub : forall l, In l (candidates (projectLocation st) (council st)) ->
                             In l regionNames).
    { intros l Hin. apply (dictionary_names_known (council st)).
      unfold candidates in Hin. apply in_map_iff in Hin as (r & <- & Hr).
      apply filter_In in Hr as [Hr _]. now apply in_map. }
    unfold handleAutoDetectICMP. rewrite inferICMPMatches_eq.
    fold (candidates (projectLocation st) (council st)).
    destruct (candidates (projectLocation st) (council st)) as [|a [|b cs]];
      simpl in Hlen; try lia.
    inversion Hnamed as [|? ? Ha _]; subst.
    destruct a as [|x a]; [congruence|].
    constructor; cbn.
    + exact Hc.
    + exact Hh.
    + exact Hl.
    + exact Hsub.
    + discriminate.
    + intros _. split; [lia | now left].
    + exact Hg.
Qed.

Ltac session_cbn :=
  cbn [council includeHPMO projectName projectLocation inferredICMP icmpOptions
       showIcmpModal icmpTemp figureGallery setCouncil setIncludeHPMO setProjectName
       setProjectLocation setInferredICMP setIcmpOptions setShowIcmpModal setIcmpTemp
       setFigureGallery handleCouncilChange confirmICMP cancelICMP handleFigureChange].

Lemma step_invariant (st st' : Session) :
  sessionInvariant st -> step st st' -> sessionInvariant st'.
Proof.
  intros Hinv Hstep. destruct Hstep as
      [v st | v st | st | v st Hv | checked st | opt st Hshown Hopt | st Hshown | st Hshown
       | fig checked st Hfig].
  - destruct Hinv. constructor; assumption.
  - destruct Hinv. constructor; assumption.
  - now apply handleAutoDetectICMP_invariant.
  - destruct Hinv as [Hc Hh Hl Ho Hcl Hop Hg]. constructor; session_cbn; try assumption.
    intros H. destruct (streq_spec v HamiltonCityCouncil); [assumption | discriminate].
  - unfold handleHPMOChange.
    destruct (streq_spec (council st) HamiltonCityCouncil) as [Heq|Hne]; [|exact Hinv].
    destruct Hinv as [Hc Hh Hl Ho Hcl Hop Hg]. constructor; session_cbn; try assumption.
    intros _. exact Heq.
  - destruct Hinv as [Hc Hh Hl Ho Hcl Hop Hg]. constructor; session_cbn; try assumption.
    intros H. split; [exact (proj1 (Hop H)) | exact Hopt].
  - destruct Hinv as [Hc Hh Hl Ho Hcl Hop Hg]. constructor; session_cbn; try assumption;
      try discriminate; try (intros ? []); try reflexivity.
    apply regionNames_known, Ho. exact (proj2 (Hop Hshown)).
  - destruct Hinv as [Hc Hh Hl Ho Hcl Hop Hg]. constructor; session_cbn; try assumption;
      try discriminate; try (intros ? []); reflexivity.
  - destruct Hinv as [Hc Hh Hl Ho Hcl Hop Hg]. constructor; session_cbn; try assumption.
    now rewrite toggleFigure_source.
Qed.

(** Whatever the user does, the session stays well formed: the council
    is one of the two options; the He Pou Manawa Ora toggle is on only
    for Hamilton; the resolved label is "(not set)", a fallback or the
    name of a Region, never free text; the chooser is shown exactly
    with two or more options, all of them Region names, and its
    preselection is one of them; the gallery keeps its figures.  So
    "Use selected ICMP" always resolves to one of the offered
    options. *)
Theorem reachable_sessions_are_well_formed (st : Session) :
  reachable st ->
  sessionInvariant st /\
  (showIcmpModal st = true -> In (inferredICMP (confirmICMP st)) (icmpOptions st)) /\
  (icmpOptions st <> [] <-> showIcmpModal st = true).
Proof.
  intros Hreach.
  assert (Hinv : sessionInvariant st).
  { induction Hreach as [|st st' _ IH Hstep].
    - constructor; try discriminate; try (intros ? []); try reflexivity.
      + left. reflexivity.
      + left. reflexivity.
    - exact (step_invariant st st' IH Hstep). }
  split; [exact Hinv|]. destruct Hinv as [Hc Hh Hl Ho Hcl Hop Hg]. split.
  - intros Hshown. exact (proj2 (Hop Hshown)).
  - split.
    + intros Hne. destruct (showIcmpModal st); [reflexivity|]. now rewrite Hcl in Hne.
    + intros Hshown Hnil. destruct (Hop Hshown) as [Hlen _]. rewrite Hnil in Hlen.
      simpl in Hlen. lia.
Qed.

Lemma reachable_sessions_are_well_formed_witness :
  reachable (handleCouncilChange WaikatoDistrictCouncil (handleAutoDetectICMP twoRegionSession)) /\
  showIcmpModal (handleCouncilChange WaikatoDistrictCouncil
                   (handleAutoDetectICMP twoRegionSession)) = true /\
  includeHPMO (handleCouncilChange WaikatoDistrictCouncil
                 (handleAutoDetectICMP twoRegionSession)) = false /\
  In (inferredICMP (confirmICMP (handleCouncilChange WaikatoDistrictCouncil
                                   (handleAutoDetectICMP twoRegionSession))))
     [js "Waitawhiriwhiri ICMP"; js "Mangakotukutuku ICMP"].
Proof.
  assert (Hreach : reachable (handleCouncilChange WaikatoDistrictCouncil
                                (handleAutoDetectICMP twoRegionSession))).
  { eapply ReachStep; [eapply ReachStep; [eapply ReachStep; [apply ReachInitial|]|]|].
    - apply (StepProjectLocation (js "Frankton, near Glenview")).
    - apply StepAutoDetect.
    - apply StepCouncil. right. reflexivity. }
  assert (Hshown : showIcmpModal (handleCouncilChange WaikatoDistrictCouncil
                                    (handleAutoDetectICMP twoRegionSession)) = true)
    by (vm_compute; reflexivity).
  split; [exact Hreach|]. split; [exact Hshown|]. split; [vm_compute; reflexivity|].
  destruct (reachable_sessions_are_well_formed _ Hreach) as (_ & Hconfirm & _).
  pose proof (Hconfirm Hshown) as H.
  assert (E : icmpOptions (handleCouncilChange WaikatoDistrictCouncil
                             (handleAutoDetectICMP twoRegionSession))
              = [js "Waitawhiriwhiri ICMP"; js "Mangakotukutuku ICMP"])
    by (vm_compute; reflexivity).
  rewrite E in H. exact H.
Defined.

(** ** Figures *)

(** A figure's checkbox changes the selection of the figures that carry
    its id and nothing else: ids, captions, payloads, order and number
    of figures stay, figures with another id are untouched, every
    figure with the id ends up with the box's value, ticking twice is
    ticking once, and after unticking no figure with the id is among
    the selected ones that the exporter embeds. *)
Theorem toggleFigure_changes_selection_only (figId : jsstring) (checked : bool)
    (prev : list Figure) :
  map figureSource (toggleFigure figId checked prev) = map figureSource prev /\
  List.length (toggleFigure figId checked prev) = List.length prev /\
  (forall g, In g prev -> id g <> figId -> In g (toggleFigure figId checked prev)) /\
  (forall g, In g (toggleFigure figId checked prev) -> id g = figId -> selected g = checked) /\
  toggleFigure figId checked (toggleFigure figId checked prev) = toggleFigure figId checked prev /\
  (forall g, In g (filter selected (toggleFigure figId false prev)) -> id g <> figId) /\
  (forall g, In g prev -> id g = figId ->
             In (withSelected true g) (filter selected (toggleFigure figId true prev))).
Proof.
  split; [apply toggleFigure_source|].
  split; [apply length_map|].
  split; [|split; [|split; [|split]]].
  - intros g Hg Hid. unfold toggleFigure. apply in_map_iff. exists g.
    rewrite (streq_neq _ _ Hid). split; [reflexivity | exact Hg].
  - intros g Hg Hid. unfold toggleFigure in Hg. apply in_map_iff in Hg as (g0 & Hg0 & _).
    destruct (streq_spec (id g0) figId) as [E|E].
    + now subst g.
    + subst g. contradiction.
  - unfold toggleFigure. rewrite map_map. apply map_ext. intros g.
    destruct (streq (id g) figId) eqn:E; [|now rewrite E].
    cbn [id withSelected]. now rewrite E.
  - intros g Hg Hid. apply filter_In in Hg as [Hg Hsel].
    unfold toggleFigure in Hg. apply in_map_iff in Hg as (g0 & Hg0 & _).
    destruct (streq_spec (id g0) figId) as [E|E].
    + subst g. discriminate Hsel.
    + subst g. contradiction.
  - intros g Hg Hid. apply filter_In. split; [|reflexivity].
    unfold toggleFigure. apply in_map_iff. exists g.
    rewrite Hid, streq_refl. split; [reflexivity | exact Hg].
Qed.

Lemma toggleFigure_changes_selection_only_witness :
  In (placeholderFigure 5) (figureGallery initialSession) /\
  id (placeholderFigure 5) = js "fig-6" /\
  In (withSelected true (placeholderFigure 5))
     (selectedFigures (handleFigureChange (js "fig-6") true initialSession)) /\
  List.length (selectedFigures (handleFigureChange (js "fig-6") true initialSession)) = 4%nat.
Proof.
  assert (Hin : In (placeholderFigure 5) (figureGallery initialSession))
    by (do 5 right; left; reflexivity).
  assert (Hid : id (placeholderFigure 5) = js "fig-6") by (vm_compute; reflexivity).
  split; [exact Hin|]. split; [exact Hid|]. split; [|vm_compute; reflexivity].
  destruct (toggleFigure_changes_selection_only (js "fig-6") true (figureGallery initialSession))
    as (_ & _ & _ & _ & _ & _ & Hsel).
  exact (Hsel _ Hin Hid).
Defined.

(** ** Exporter *)








Lemma split_clean (sep : N) (s : jsstring) : ~ In sep s -> split sep s = [s].
Proof.
  induction s as [|c s IH]; intros H; [reflexivity|]. simpl.
  destruct (N.eqb_spec c sep) as [->|Hne]; [exfalso; apply H; now left|].
  rewrite IH; [reflexivity|]. intros Hin. apply H. now right.
Qed.

Lemma split_app (sep : N) (p s : jsstring) :
  ~ In sep p -> split sep (p ++ sep :: s) = p :: split sep s.
Proof.
  induction p as [|c p IH]; intros H; simpl.
  - now rewrite N.eqb_refl.
  - destruct (N.eqb_spec c sep) as [->|Hne]; [exfalso; apply H; now left|].
    rewrite IH; [reflexivity|]. intros Hin. apply H. now right.
Qed.

(** The payload of a figure is what stands between the first and the
    second comma of its data URL: empty when the URL has no comma,
    everything after the comma when it has one, and cut at the second
    comma when it has more. *)
Theorem payload_is_second_field (f : Figure) :
  (~ In 0x2C (dataUrl f) -> payload f = []) /\
  (forall p d,
      ~ In 0x2C p -> ~ In 0x2C d ->
      dataUrl f = p ++ js "," ++ d -> payload f = d) /\
  (forall p d rest,
      ~ In 0x2C p -> ~ In 0x2C d ->
      dataUrl f = p ++ js "," ++ d ++ js "," ++ rest -> payload f = d).
Proof.
  unfold payload. split; [|split].
  - intros H. now rewrite (split_clean _ _ H).
  - intros p d Hp Hd E. rewrite E. change (js "," ++ d) with (0x2C :: d).
    rewrite (split_app _ _ _ Hp), (split_clean _ _ Hd). apply orElse_Some_nil.
  - intros p d rest Hp Hd E. rewrite E.
    change (js "," ++ d ++ js "," ++ rest) with (0x2C :: d ++ 0x2C :: rest).
    rewrite (split_app _ _ _ Hp), (split_app _ _ _ Hd). apply orElse_Some_nil.
Qed.

Lemma payload_is_second_field_witness :
  ~ In 0x2C (js "data:image/png;base64") /\
  ~ In 0x2C (js "iVBORw0KGgoAAAANSUhEUgAAAAoAAAAKCAYAAACNMs+9AAAAFElEQVQYV2NkYGBgYGBg+M9ABQAKCAIBz1b5AwAAAABJRU5ErkJggg==") /\
  payload (placeholderFigure 0)
  = js "iVBORw0KGgoAAAANSUhEUgAAAAoAAAAKCAYAAACNMs+9AAAAFElEQVQYV2NkYGBgYGBg+M9ABQAKCAIBz1b5AwAAAABJRU5ErkJggg==".
Proof.
  assert (Hp : ~ In 0x2C (js "data:image/png;base64"))
    by (apply hasUnit_In; vm_compute; reflexivity).
  assert (Hd : ~ In 0x2C (js "iVBORw0KGgoAAAANSUhEUgAAAAoAAAAKCAYAAACNMs+9AAAAFElEQVQYV2NkYGBgYGBg+M9ABQAKCAIBz1b5AwAAAABJRU5ErkJggg=="))
    by (apply hasUnit_In; vm_compute; reflexivity).
  split; [exact Hp|]. split; [exact Hd|].
  apply (proj1 (proj2 (payload_is_second_field (placeholderFigure 0))) _ _ Hp Hd).
  vm_compute. reflexivity.
Defined.

Section ExportFailures.

Variables (JsError Blob : Type).
Variable atob : jsstring -> JsError + jsstring.
Variable toBlob : DocxDocument -> JsError + Blob.

Lemma mapM_figureBlock_app (pre post : list Figure) (blocks : list (list Block))
    (f : Figure) (e : JsError) :
  allDecoded atob pre blocks -> atob (payload f) = inl e ->
  mapM (Blob := Blob) (figureBlock atob) (pre ++ f :: post) = ([], inl e).
Proof.
  intros Hall Hf. induction Hall as [|g b gs bs (bin & Hg & _) _ IH].
  - cbn [app mapM]. rewrite figureBlock_eq, Hf. reflexivity.
  - cbn [app mapM]. rewrite figureBlock_eq, Hg, IH. reflexivity.
Qed.

Lemma mapM_figureBlock_all (figures : list Figure) (blocks : list (list Block)) :
  allDecoded atob figures blocks ->
  mapM (Blob := Blob) (figureBlock atob) figures = ([], inr blocks).
Proof.
  intros Hall. induction Hall as [|g b gs bs (bin & Hg & ->) _ IH]; [reflexivity|].
  cbn [mapM]. rewrite figureBlock_eq, Hg, IH. reflexivity.
Qed.

(** What a failed export reports is the first thing that went wrong:
    the error of the first figure, in order, whose payload [atob]
    rejects, whatever the later figures hold; or, when every payload
    decodes, the error of the packaging.  With no figure selected
    [atob] plays no part and the export succeeds exactly when the
    packaging does. *)
Theorem export_reports_first_failure (title body : jsstring) :
  (forall pre f post blocks e,
      allDecoded atob pre blocks -> atob (payload f) = inl e ->
      exportNarrativeDocx atob toBlob title body (pre ++ f :: post)
      = ([ConsoleError e; Alert exportFailedMessage], inr tt)) /\
  (forall figures blocks e,
      allDecoded atob figures blocks ->
      toBlob (narrativeDocument title body blocks) = inl e ->
      exportNarrativeDocx atob toBlob title body figures
      = ([ConsoleError e; Alert exportFailedMessage], inr tt)) /\
  (forall figures blocks blob,
      allDecoded atob figures blocks ->
      toBlob (narrativeDocument title body blocks) = inr blob ->
      exportNarrativeDocx atob toBlob title body figures
      = ([Download (underscored title ++ js ".docx") blob], inr tt)) /\
  exportNarrativeDocx atob toBlob title body []
  = match toBlob (narrativeDocument title body []) with
    | inl e => ([ConsoleError e; Alert exportFailedMessage], inr tt)
    | inr blob => ([Download (underscored title ++ js ".docx") blob], inr tt)
    end.
Proof.
  split; [|split; [|split]].
  - intros pre f post blocks e Hall Hf. unfold exportNarrativeDocx.
    rewrite (mapM_figureBlock_app pre post blocks f e Hall Hf). reflexivity.
  - intros figures blocks e Hall Hb. unfold exportNarrativeDocx.
    rewrite (mapM_figureBlock_all figures blocks Hall). cbn [bind call]. rewrite Hb. reflexivity.
  - intros figures blocks blob Hall Hb. unfold exportNarrativeDocx.
    rewrite (mapM_figureBlock_all figures blocks Hall). cbn [bind call]. rewrite Hb. reflexivity.
  - unfold exportNarrativeDocx. cbn [mapM ret bind call].
    destruct (toBlob (narrativeDocument title body [])); reflexivity.
Qed.

End ExportFailures.

Lemma export_reports_first_failure_witness :
  allDecoded strictAtob (selectedFigures initialSession)
    (map (fun f => decodedFigure f (payload f)) (selectedFigures initialSession)) /\
  strictAtob (payload brokenFigure) = inl (js "InvalidCharacterError") /\
  exportNarrativeDocx strictAtob idlePackager (js "CIA_Mana_Whenua") (js "body")
    (selectedFigures initialSession ++ brokenFigure :: [brokenFigure])
  = ([ConsoleError (js "InvalidCharacterError"); Alert exportFailedMessage], inr tt).
Proof.
  assert (Hall : allDecoded strictAtob (selectedFigures initialSession)
                   (map (fun f => decodedFigure f (payload f)) (selectedFigures initialSession))).
  { repeat constructor; eexists; (split; [vm_compute; reflexivity | reflexivity]). }
  assert (Hbad : strictAtob (payload brokenFigure) = inl (js "InvalidCharacterError"))
    by (vm_compute; reflexivity).
  split; [exact Hall|]. split; [exact Hbad|].
  exact (proj1 (export_reports_first_failure jsstring DocxDocument strictAtob idlePackager
                  (js "CIA_Mana_Whenua") (js "body")) _ _ _ _ _ Hall Hbad).
Defined.

(** ** Narrative composer *)

Lemma buildStandardManaWhenua_parts (st : Session) (findings : list Finding) :
  exists middle,
    buildStandardManaWhenua st findings
    = manaWhenuaIntro st ++ middle ++ manaWhenuaAlign st ++ (nl ++ nl) ++ manaWhenuaOutro.
Proof.
  unfold buildStandardManaWhenua. cbv zeta.
  match goal with
  | |- exists m, join ?sep [?a; ?b; ?c; ?d; ?e] = _ =>
      exists (sep ++ b ++ sep ++ c ++ sep);
      change (join sep [a; b; c; d; e])
        with (a ++ sep ++ b ++ sep ++ c ++ sep ++ d ++ sep ++ e)
  end.
  now rewrite <- !app_assoc.
Qed.

(** Both documents carry the session's project name and resolved label,
    whatever they and the findings are. *)
Theorem narratives_carry_name_and_label (st : Session) (findings : list Finding) :
  includes (buildStandardManaWhenua st findings) (projectName st) = true /\
  includes (buildStandardManaWhenua st findings) (inferredICMP st) = true /\
  includes (buildStandardCouncil st findings) (projectName st) = true /\
  includes (buildStandardCouncil st findings) (inferredICMP st) = true.
Proof.
  destruct (buildStandardManaWhenua_parts st findings) as (middle & E).
  split; [|split; [|split]].
  - rewrite E. apply includes_app_l. unfold manaWhenuaIntro. apply includes_app.
  - rewrite E. do 2 apply includes_app_r. apply includes_app_l.
    unfold manaWhenuaAlign. apply includes_app.
  - unfold buildStandardCouncil. apply includes_app.
  - apply buildStandardCouncil_includes_scope. unfold councilScope.
    do 3 apply includes_app_r. apply includes_startsWith, startsWith_app.
Qed.

(** ** Self-check validator *)

Lemma council_branch_check_passes (st : Session) (findings : list Finding) :
  includes (buildStandardCouncil st findings)
           (if streq (council st) HamiltonCityCouncil
            then js "He Pou Manawa Ora" else js "Waikato District Plan") = true.
Proof.
  apply buildStandardCouncil_includes_scope. unfold councilScope, policyPhrase.
  destruct (streq (council st) HamiltonCityCouncil).
  - change hamiltonPolicyPhrase with (js "He Pou Manawa Ora" ++ js "; Hamilton District Plan").
    rewrite <- (app_assoc (js "He Pou Manawa Ora")). apply includes_app.
  - apply includes_app.
Qed.

Lemma sample_categories_present :
  forEachCheck
    (fun c => check (existsb (streq c) (map category sampleFindings))
                    (js "Missing category: " ++ c)) expectedCategories = inr tt.
Proof. vm_compute. reflexivity. Qed.

Lemma canaries_pass :
  check (test (lit (js "Waitawhiriwhiri ICMP"))
              (inferICMP (Some (js "Waitawhiriwhiri")) HamiltonCityCouncil))
        (js "ICMP inference failed for Waitawhiriwhiri") = inr tt /\
  check (test (lit (js "Mangakotukutuku ICMP"))
              (inferICMP (Some (js "Mangakotukutuku")) HamiltonCityCouncil))
        (js "ICMP inference failed for Mangakotukutuku") = inr tt.
Proof. split; vm_compute; reflexivity. Qed.

Lemma some_selected (figures : list Figure) :
  negb (Nat.eqb (List.length (filter selected figures)) 0) = existsb selected figures.
Proof.
  induction figures as [|g figures IH]; [reflexivity|]. simpl.
  destruct (selected g); [reflexivity | exact IH].
Qed.

(** Over the repository's findings the outcome of [runSelfChecks] is
    decided by two checks alone: the marker test on the community-voice
    document and whether a figure is selected.  The required-field,
    council-branch, category and classifier checks pass in every
    session.  The marker test passes when the project name itself
    holds the text of the marker, and then, with a figure selected, all
    self-checks pass. *)
Theorem runSelfChecks_outcome (st : Session) :
  runSelfChecks st sampleFindings =
    (if test markerPattern (buildStandardManaWhenua st sampleFindings)
     then if existsb selected (figureGallery st)
          then js "All self-checks passed"
          else js "Test failure: No figures selected"
     else js "Test failure: Unicode escape missing") /\
  (includes (projectName st) markerText = true ->
   test markerPattern (buildStandardManaWhenua st sampleFindings) = true /\
   (existsb selected (figureGallery st) = true ->
    runSelfChecks st sampleFindings = js "All self-checks passed")).
Proof.
  assert (Hout : runSelfChecks st sampleFindings =
            (if test markerPattern (buildStandardManaWhenua st sampleFindings)
             then if existsb selected (figureGallery st)
                  then js "All self-checks passed"
                  else js "Test failure: No figures selected"
             else js "Test failure: Unicode escape missing")).
  { unfold runSelfChecks, selfChecks.
    rewrite sample_findings_filled, council_branch_check_passes, sample_categories_present.
    rewrite (proj1 canaries_pass), (proj2 canaries_pass), some_selected.
    destruct (test markerPattern _); [|reflexivity].
    destruct (existsb selected (figureGallery st)); reflexivity. }
  split; [exact Hout|].
  intros Hname.
  assert (Ht : test markerPattern (buildStandardManaWhenua st sampleFindings) = true).
  { unfold markerPattern. rewrite test_lit by discriminate.
    destruct (buildStandardManaWhenua_parts st sampleFindings) as (middle & ->).
    apply includes_app_l. unfold manaWhenuaIntro.
    apply includes_app_r, includes_app_l. exact Hname. }
  split; [exact Ht|]. intros Hsel. now rewrite Hout, Ht, Hsel.
Qed.

Lemma runSelfChecks_outcome_witness :
  includes (projectName (setProjectName (js "Stage 2 " ++ markerText) initialSession))
           markerText = true /\
  existsb selected (figureGallery (setProjectName (js "Stage 2 " ++ markerText) initialSession))
  = true /\
  runSelfChecks (setProjectName (js "Stage 2 " ++ markerText) initialSession) sampleFindings
  = js "All self-checks passed" /\
  runSelfChecks (setFigureGallery [] (setProjectName (js "Stage 2 " ++ markerText) initialSession))
                sampleFindings
  = js "Test failure: No figures selected".
Proof.
  assert (Hn : includes (projectName (setProjectName (js "Stage 2 " ++ markerText) initialSession))
                        markerText = true) by (vm_compute; reflexivity).
  assert (Hs : existsb selected
                 (figureGallery (setProjectName (js "Stage 2 " ++ markerText) initialSession))
               = true) by (vm_compute; reflexivity).
  split; [exact Hn|]. split; [exact Hs|].
  split; [exact (proj2 (proj2 (runSelfChecks_outcome _) Hn) Hs)|].
  vm_compute. reflexivity.
Defined.

(** ** Numbering *)

Lemma log2_tenth (n : N) : 10 <= n -> (N.to_nat (N.log2 (n / 10)) < N.to_nat (N.log2 n))%nat.
Proof.
  intros Hn.
  assert (Hpos : 0 < n / 10).
  { apply N.div_str_pos. lia. }
  assert (Hlt : N.log2 (n / 10) < N.log2 n).
  { apply N.log2_lt_pow2; [exact Hpos|].
    destruct (N.log2_spec n ltac:(lia)) as [_ Hup].
    apply N.Div0.div_lt_upper_bound.
    rewrite N.pow_succ_r' in Hup. lia. }
  lia.
Qed.

Lemma parseDecimal_app (ds : jsstring) (d : N) :
  parseDecimal (ds ++ [d]) = 10 * parseDecimal ds + (d - 0x30).
Proof. unfold parseDecimal. now rewrite fold_left_app. Qed.

Lemma isDigit_digit (d : N) : d < 10 -> isDigit (0x30 + d) = true.
Proof.
  intros H. unfold isDigit.
  destruct (N.leb_spec 0x30 (0x30 + d)); [|lia].
  destruct (N.leb_spec (0x30 + d) 0x39); [reflexivity | lia].
Qed.

Lemma digitsFuel_spec (fuel : nat) (n : N) (acc : jsstring) :
  (N.to_nat (N.log2 n) < fuel)%nat ->
  exists ds,
    digitsFuel fuel n acc = ds ++ acc /\
    ds <> [] /\
    forallb isDigit ds = true /\
    parseDecimal ds = n /\
    (0 < n -> hd_error ds <> Some 0x30).
Proof.
  revert n acc. induction fuel as [|fuel IH]; intros n acc Hfuel; [lia|].
  cbn [digitsFuel]. destruct (N.ltb_spec n 10) as [Hsmall|Hbig].
  - exists [0x30 + n mod 10]. rewrite (N.mod_small n 10 Hsmall).
    split; [reflexivity|]. split; [discriminate|]. split.
    + cbn [forallb]. now rewrite (isDigit_digit n Hsmall).
    + split; [unfold parseDecimal; cbn [fold_left]; lia|].
      intros Hpos H. unfold hd_error in H.
      assert (E : 0x30 + n = 0x30) by congruence. lia.
  - assert (Hfuel' : (N.to_nat (N.log2 (n / 10)) < fuel)%nat).
    { pose proof (log2_tenth n Hbig). lia. }
    destruct (IH (n / 10) ((0x30 + n mod 10) :: acc) Hfuel')
      as (ds & E & Hne & Hdig & Hval & Hhd).
    exists (ds ++ [0x30 + n mod 10]).
    assert (Hmod : n mod 10 < 10) by (apply N.mod_lt; lia).
    split; [rewrite E, <- app_assoc; reflexivity|].
    split; [destruct ds; discriminate|]. split.
    + rewrite forallb_app, Hdig. cbn [forallb]. now rewrite (isDigit_digit _ Hmod).
    + split.
      * rewrite parseDecimal_app, Hval.
        pose proof (N.div_mod n 10 ltac:(lia)) as Hdm.
        clear - Hdm Hmod. set (q := n / 10) in *. set (r := n mod 10) in *.
        clearbody q r. lia.
      * intros _. destruct ds as [|d ds]; [congruence|].
        apply Hhd. apply N.div_str_pos. lia.
Qed.

Lemma numberToString_spec (n : N) :
  numberToString n <> [] /\
  forallb isDigit (numberToString n) = true /\
  parseDecimal (numberToString n) = n /\
  (0 < n -> hd_error (numberToString n) <> Some 0x30).
Proof.
  unfold numberToString.
  destruct (digitsFuel_spec (S (N.to_nat (N.log2 n))) n [] ltac:(lia))
    as (ds & E & Hne & Hdig & Hval & Hhd).
  rewrite E, app_nil_r. repeat split; assumption.
Qed.

Lemma nth_error_mapiFrom {A B : Type} (f : A -> N -> B) (xs : list A) (i : N) (k : nat) :
  nth_error (mapiFrom i f xs) k
  = match nth_error xs k with
    | Some x => Some (f x (i + N.of_nat k))
    | None => None
    end.
Proof.
  revert i k. induction xs as [|x xs IH]; intros i k.
  - destruct k; reflexivity.
  - destruct k as [|k]; cbn [mapiFrom nth_error].
    + now rewrite N.add_0_r.
    + rewrite IH. destruct (nth_error xs k); [|reflexivity].
      do 2 f_equal. lia.
Qed.

(** The proposed consent conditions are numbered from 1, consecutively
    across the findings: line [k] (from 0) is the decimal numeral of
    [k + 1], a full stop, a space and the [k]-th clause of the findings
    taken in order; there are as many lines as clauses.  The numeral is
    made of digits only, has no leading zero and reads back as
    [k + 1]. *)
Theorem consent_conditions_are_numbered (findings : list Finding) :
  let clauses := flat_map consentClauses findings in
  let lines := mapi councilCondition clauses in
  List.length lines = List.length clauses /\
  (forall k clause,
      nth_error clauses k = Some clause ->
      nth_error lines k = Some (numberToString (N.of_nat k + 1) ++ js ". " ++ clause)) /\
  (forall n,
      numberToString n <> [] /\
      forallb isDigit (numberToString n) = true /\
      parseDecimal (numberToString n) = n /\
      (0 < n -> hd_error (numberToString n) <> Some 0x30)).
Proof.
  intros clauses lines. split; [|split].
  - subst lines. unfold mapi. generalize 0. induction clauses as [|c cs IH]; intros i;
      [reflexivity|]. cbn [mapiFrom List.length]. now rewrite IH.
  - intros k clause Hk. subst lines. unfold mapi.
    rewrite nth_error_mapiFrom, Hk. reflexivity.
  - apply numberToString_spec.
Qed.

Lemma consent_conditions_are_numbered_witness :
  nth_error (flat_map consentClauses sampleFindings) 8
  = Some (js "Establish a Cultural Design Review Panel with decision checkpoints at concept, developed, and pre-construction stages; implement agreed viewshaft protection measures.") /\
  nth_error (mapi councilCondition (flat_map consentClauses sampleFindings)) 8
  = Some (js "9. Establish a Cultural Design Review Panel with decision checkpoints at concept, developed, and pre-construction stages; implement agreed viewshaft protection measures.") /\
  parseDecimal (numberToString 2026) = 2026.
Proof.
  assert (H : nth_error (flat_map consentClauses sampleFindings) 8
              = Some (js "Establish a Cultural Design Review Panel with decision checkpoints at concept, developed, and pre-construction stages; implement agreed viewshaft protection measures."))
    by (vm_compute; reflexivity).
  split; [exact H|].
  destruct (consent_conditions_are_numbered sampleFindings) as (_ & Hline & Hnum).
  split; [rewrite (Hline _ _ H); vm_compute; reflexivity|].
  exact (proj1 (proj2 (proj2 (Hnum 2026)))).
Defined.

(** ** Patterns with optional white space *)

Lemma matchesAt_seq (r1 r2 : regex) (prev : option N) (s : jsstring) :
  matchesAt (Seq r1 r2) prev s
  = existsb (fun p => matchesAt r2 (fst p) (snd p)) (matchAt r1 prev s).
Proof.
  unfold matchesAt. cbn [matchAt].
  induction (matchAt r1 prev s) as [|p l IH]; [reflexivity|].
  cbn [flat_map existsb]. destruct (matchAt r2 (fst p) (snd p)); [exact IH | reflexivity].
Qed.

Lemma startsWith_app_split (x y s : jsstring) :
  startsWith (x ++ y) s = startsWith x s && startsWith y (skipn (List.length x) s).
Proof.
  revert s. induction x as [|c x IH]; intros s; [reflexivity|].
  destruct s as [|d s]; [reflexivity|]. cbn [app startsWith List.length skipn].
  rewrite IH. now rewrite andb_assoc.
Qed.

Lemma lastUnit_app (prev : option N) (a b : jsstring) :
  lastUnit prev (a ++ b) = lastUnit (lastUnit prev a) b.
Proof. revert prev. induction a as [|c a IH]; intros prev; [reflexivity | apply IH]. Qed.

Lemma In_spaceStar (prev : option N) (s : jsstring) (p : option N) (rest : jsstring) :
  In (p, rest) (spaceStar prev s) <->
  exists ws, forallb isSpace ws = true /\ s = ws ++ rest /\ p = lastUnit prev ws.
Proof.
  split.
  - revert prev. induction s as [|c s IH]; intros prev; cbn [spaceStar].
    + intros [H|[]]. inversion H; subst. exists []. repeat split.
    + intros [H|H].
      * inversion H; subst. exists []. repeat split.
      * destruct (isSpace c) eqn:Ec; [|destruct H].
        destruct (IH (Some c) H) as (ws & Hws & -> & ->).
        exists (c :: ws). cbn [forallb]. rewrite Ec, Hws. repeat split.
  - intros (ws & Hws & -> & ->). revert prev.
    induction ws as [|c ws IH]; intros prev.
    + destruct rest; left; reflexivity.
    + cbn [forallb] in Hws. apply andb_true_iff in Hws as [Hc Hws].
      cbn [app spaceStar]. right. rewrite Hc. exact (IH Hws (Some c)).
Qed.

Lemma In_optSpace (prev : option N) (s : jsstring) (p : option N) (rest : jsstring) :
  In (p, rest) (matchAt (Opt Space) prev s) <->
  exists ws, (forallb isSpace ws = true /\ (List.length ws <= 1)%nat)
             /\ s = ws ++ rest /\ p = lastUnit prev ws.
Proof.
  cbn [matchAt]. split.
  - intros H. apply in_app_or in H as [H|[H|[]]].
    + destruct s as [|d s]; [destruct H|]. destruct (isSpace d) eqn:Ed; [|destruct H].
      destruct H as [H|[]]. inversion H; subst.
      exists [d]. cbn [forallb List.length]. rewrite Ed. repeat split. lia.
    + inversion H; subst. exists []. repeat split. simpl. lia.
  - intros (ws & (Hws & Hlen) & -> & ->). apply in_or_app.
    destruct ws as [|c [|c' ws]]; [right; left; reflexivity | | simpl in Hlen; lia].
    left. cbn [forallb] in Hws. apply andb_true_iff in Hws as [Hc _].
    cbn [app]. rewrite Hc. left. reflexivity.
Qed.

(** [a gap tl], where [gap] consumes a run of units described by [Q]
    and [tl] starts with the text [b] and then cannot fail. *)
Lemma matchesAt_gap (gap tl : regex) (Q : jsstring -> Prop) (a b : jsstring) :
  (forall prev s p rest,
      In (p, rest) (matchAt gap prev s) <->
      exists ws, Q ws /\ s = ws ++ rest /\ p = lastUnit prev ws) ->
  (forall p t, matchesAt tl p t = startsWith b t) ->
  a <> [] ->
  forall prev s,
    matchesAt (Seq (lit a) (Seq gap tl)) prev s = true <->
    exists ws, Q ws /\ startsWith (a ++ ws ++ b) s = true.
Proof.
  intros Hgap Htl Ha prev s.
  rewrite matchesAt_seq, (matchAt_lit a prev s Ha). split.
  - destruct (startsWith a s) eqn:Esa; [|discriminate].
    cbn [existsb fst snd]. rewrite orb_false_r, matchesAt_seq.
    intros H. apply existsb_exists in H as ([p rest] & Hin & Hm).
    cbn [fst snd] in Hm. rewrite Htl in Hm.
    apply Hgap in Hin as (ws & HQ & Hs & _).
    exists ws. split; [exact HQ|].
    rewrite startsWith_app_split, Esa, Hs, startsWith_app_split, startsWith_app.
    now rewrite skipn_length_app.
  - intros (ws & HQ & Hsw).
    rewrite startsWith_app_split in Hsw. apply andb_true_iff in Hsw as [Esa Hrest].
    rewrite Esa. cbn [existsb fst snd]. rewrite orb_false_r, matchesAt_seq.
    rewrite startsWith_app_split in Hrest. apply andb_true_iff in Hrest as [Hws Hb].
    apply existsb_exists.
    exists (lastUnit (Some (last a 0)) ws, skipn (List.length ws) (skipn (List.length a) s)).
    split.
    + apply Hgap. exists ws. split; [exact HQ|]. split; [|reflexivity].
      exact (startsWith_skipn ws _ Hws).
    + cbn [fst snd]. now rewrite Htl.
Qed.

Lemma testFrom_exists (r : regex) (prev : option N) (s : jsstring) :
  testFrom r prev s = true <->
  exists pre suf, s = pre ++ suf /\ matchesAt r (lastUnit prev pre) suf = true.
Proof.
  split.
  - revert prev. induction s as [|c s IH]; intros prev H; cbn [testFrom] in H.
    + rewrite orb_false_r in H. exists [], []. split; [reflexivity | exact H].
    + apply orb_true_iff in H as [H|H].
      * exists [], (c :: s). split; [reflexivity | exact H].
      * destruct (IH (Some c) H) as (pre & suf & -> & Hm).
        exists (c :: pre), suf. split; [reflexivity | exact Hm].
  - intros (pre & suf & -> & Hm). revert prev Hm.
    induction pre as [|c pre IH]; intros prev Hm.
    + cbn [app lastUnit] in *. destruct suf; cbn [testFrom]; now rewrite Hm.
    + cbn [app testFrom]. rewrite (IH (Some c) Hm). apply orb_true_r.
Qed.

Lemma includes_exists (s p : jsstring) :
  includes s p = true <-> exists pre suf, s = pre ++ suf /\ startsWith p suf = true.
Proof.
  split.
  - induction s as [|c s IH]; intros H; cbn [includes] in H.
    + rewrite orb_false_r in H. exists [], []. split; [reflexivity | exact H].
    + apply orb_true_iff in H as [H|H].
      * exists [], (c :: s). split; [reflexivity | exact H].
      * destruct (IH H) as (pre & suf & -> & Hm).
        exists (c :: pre), suf. split; [reflexivity | exact Hm].
  - intros (pre & suf & -> & Hm). apply includes_app_r, includes_startsWith, Hm.
Qed.

Lemma test_gap (gap tl : regex) (Q : jsstring -> Prop) (a b s : jsstring) :
  (forall prev s p rest,
      In (p, rest) (matchAt gap prev s) <->
      exists ws, Q ws /\ s = ws ++ rest /\ p = lastUnit prev ws) ->
  (forall p t, matchesAt tl p t = startsWith b t) ->
  a <> [] ->
  (test (Seq (lit a) (Seq gap tl)) s = true <->
   exists ws, Q ws /\ includes s (a ++ ws ++ b) = true).
Proof.
  intros Hgap Htl Ha. unfold test. rewrite testFrom_exists. split.
  - intros (pre & suf & -> & Hm).
    apply (matchesAt_gap gap tl Q a b Hgap Htl Ha) in Hm as (ws & HQ & Hsw).
    exists ws. split; [exact HQ|]. apply includes_exists. now exists pre, suf.
  - intros (ws & HQ & Hinc). apply includes_exists in Hinc as (pre & suf & -> & Hsw).
    exists pre, suf. split; [reflexivity|].
    apply (matchesAt_gap gap tl Q a b Hgap Htl Ha). now exists ws.
Qed.

Lemma matchesAt_lit_then_opt (b : jsstring) (r : regex) (p : option N) (t : jsstring) :
  b <> [] -> matchesAt (Seq (lit b) (Opt r)) p t = startsWith b t.
Proof.
  intros Hb. rewrite matchesAt_seq, (matchAt_lit b p t Hb).
  destruct (startsWith b t); [|reflexivity].
  cbn [existsb fst snd]. rewrite orb_false_r. unfold matchesAt. cbn [matchAt].
  destruct (matchAt r _ _); reflexivity.
Qed.

(** How [\s*], [\s?] and [s?] read.  "Te Kauwhata ICMP" is a candidate
    (for every council but Hamilton) exactly when the normalized
    location includes "te", any run of white space, also none, and
    "kauwhata", or includes "waerenga" or "meremere".  "Te Rapa ICMP"
    allows at most one white-space unit between "te" and "rapa".  In
    [forest\s*lakes?] the optional "s" changes nothing: the pattern
    matches exactly when "forest", a run of white space and "lake" are
    included. *)
Theorem spaced_patterns (location : option jsstring) :
  (forall c,
      c <> HamiltonCityCouncil ->
      (In (js "Te Kauwhata ICMP") (inferICMPMatches location c) <->
       (exists ws, forallb isSpace ws = true /\
                   includes (normalizeForMatch location) (js "te" ++ ws ++ js "kauwhata") = true)
       \/ includes (normalizeForMatch location) (js "waerenga") = true
       \/ includes (normalizeForMatch location) (js "meremere") = true)) /\
  (In (js "Te Rapa ICMP") (inferICMPMatches location HamiltonCityCouncil) <->
   (exists ws, (forallb isSpace ws = true /\ (List.length ws <= 1)%nat) /\
               includes (normalizeForMatch location) (js "te" ++ ws ++ js "rapa") = true)
   \/ test (word "pukete") (normalizeForMatch location) = true
   \/ test (word "northgate") (normalizeForMatch location) = true) /\
  (forall s,
      test (Seq (lit (js "forest")) (Seq SpaceStar (Seq (lit (js "lake")) (Opt (Chr 0x73))))) s = true
      <-> exists ws, forallb isSpace ws = true /\
                     includes s (js "forest" ++ ws ++ js "lake") = true).
Proof.
  split; [|split].
  - intros c Hc. apply streq_neq in Hc.
    set (r := Build_Region (js "Te Kauwhata ICMP")
                [alts (Seq (lit (js "te")) (Seq SpaceStar (lit (js "kauwhata"))))
                      [lit (js "waerenga"); lit (js "meremere")]]).
    assert (Hr : In r (dictionaryOf c)).
    { unfold dictionaryOf. rewrite Hc. do 2 right. left. reflexivity. }
    change (js "Te Kauwhata ICMP") with (name r).
    rewrite (candidate_iff_region_matches location c r Hr).
    unfold areaMatches, r. cbn [patterns existsb]. rewrite orb_false_r, test_alts.
    cbn [existsb]. rewrite orb_false_r, !orb_true_iff.
    rewrite !test_lit by discriminate.
    rewrite (test_gap SpaceStar (lit (js "kauwhata")) (fun ws => forallb isSpace ws = true)
               (js "te") (js "kauwhata") (normalizeForMatch location)
               In_spaceStar
               (fun p t => matchesAt_lit (js "kauwhata") p t ltac:(discriminate))
               ltac:(discriminate)).
    reflexivity.
  - set (r := Build_Region (js "Te Rapa ICMP")
                [alts (Seq (lit (js "te")) (Seq (Opt Space) (lit (js "rapa"))))
                      [word "pukete"; word "northgate"]]).
    assert (Hr : In r (dictionaryOf HamiltonCityCouncil)) by (do 2 right; left; reflexivity).
    change (js "Te Rapa ICMP") with (name r).
    rewrite (candidate_iff_region_matches location HamiltonCityCouncil r Hr).
    unfold areaMatches, r. cbn [patterns existsb]. rewrite orb_false_r, test_alts.
    cbn [existsb]. rewrite orb_false_r, !orb_true_iff.
    rewrite (test_gap (Opt Space) (lit (js "rapa"))
               (fun ws => forallb isSpace ws = true /\ (List.length ws <= 1)%nat)
               (js "te") (js "rapa") (normalizeForMatch location)
               In_optSpace
               (fun p t => matchesAt_lit (js "rapa") p t ltac:(discriminate))
               ltac:(discriminate)).
    reflexivity.
  - intros s.
    apply (test_gap SpaceStar (Seq (lit (js "lake")) (Opt (Chr 0x73)))
             (fun ws => forallb isSpace ws = true) (js "forest") (js "lake") s In_spaceStar).
    + intros p t. apply matchesAt_lit_then_opt. discriminate.
    + discriminate.
Qed.

Lemma spaced_patterns_witness :
  misspeltCouncil <> HamiltonCityCouncil /\
  In (js "Te Kauwhata ICMP") (inferICMPMatches (Some (js "Te   Kauwhata Rd")) misspeltCouncil).
Proof.
  assert (H : misspeltCouncil <> HamiltonCityCouncil) by (vm_compute; discriminate).
  split; [exact H|].
  apply (proj1 (spaced_patterns (Some (js "Te   Kauwhata Rd"))) misspeltCouncil H).
  left. exists (js "   "). split; vm_compute; reflexivity.
Defined.

(** ** Species scan *)

Lemma includes_join (sep : jsstring) (xs : list jsstring) (x p : jsstring) :
  In x xs -> includes x p = true -> includes (join sep xs) p = true.
Proof.
  intros Hin Hp. induction xs as [|y xs IH]; [destruct Hin|].
  destruct xs as [|z xs].
  - destruct Hin as [->|[]]. exact Hp.
  - change (join sep (y :: z :: xs)) with (y ++ sep ++ join sep (z :: xs)).
    destruct Hin as [->|Hin].
    + now apply includes_app_l.
    + do 2 apply includes_app_r. now apply IH.
Qed.

(** The species scan is plain inclusion of "mudfish" or of "inanga"
    spelled with U+012B in the lower-cased issue and recommendation
    text, so one finding that holds a keyword is enough, wherever it
    stands in the list; the other fields of a finding, among them the
    trigger metrics and the consent clauses, are never looked at. *)
Theorem species_scan_is_inclusion (findings : list Finding) :
  hasMudfish findings
  = includes (findingsText findings) (js "mudfish")
    || includes (findingsText findings) (u 0x012B ++ js "nanga") /\
  (forall f k,
      In f findings ->
      k = js "mudfish" \/ k = u 0x012B ++ js "nanga" ->
      includes (scannedText f) k = true ->
      hasMudfish findings = true) /\
  (forall findings',
      map issue findings' = map issue findings ->
      map recommendations findings' = map recommendations findings ->
      hasMudfish findings' = hasMudfish findings).
Proof.
  assert (Heq : forall fs, hasMudfish fs
                           = includes (findingsText fs) (js "mudfish")
                             || includes (findingsText fs) (u 0x012B ++ js "nanga")).
  { intros fs. unfold hasMudfish, speciesPattern, test.
    rewrite testFrom_alt. fold (test (lit (js "mudfish")) (findingsText fs)).
    fold (test (lit (u 0x012B ++ js "nanga")) (findingsText fs)).
    now rewrite !test_lit by discriminate. }
  split; [apply Heq|]. split.
  - intros f k Hf Hk Hinc. rewrite Heq.
    assert (Hjoin : includes (findingsText findings) k = true).
    { unfold findingsText. apply (includes_join _ _ (scannedText f)); [|exact Hinc].
      now apply in_map. }
    destruct Hk as [-> | ->]; rewrite Hjoin; [reflexivity | apply orb_true_r].
  - intros findings' Hi Hr. unfold hasMudfish, findingsText. f_equal. f_equal.
    revert findings' Hi Hr. induction findings as [|f fs IH]; intros [|f' fs'] Hi Hr;
      try discriminate; [reflexivity|].
    cbn [map] in *. injection Hi as Hi1 Hi2. injection Hr as Hr1 Hr2.
    f_equal; [|now apply IH]. unfold scannedText. now rewrite Hi1, Hr1.
Qed.

Lemma species_scan_is_inclusion_witness :
  In inangaFinding (sampleFindings ++ [inangaFinding]) /\
  includes (scannedText inangaFinding) (u 0x012B ++ js "nanga") = true /\
  hasMudfish (sampleFindings ++ [inangaFinding]) = true /\
  hasMudfish sampleFindings = false.
Proof.
  assert (Hin : In inangaFinding (sampleFindings ++ [inangaFinding]))
    by (apply in_or_app; right; left; reflexivity).
  assert (Hinc : includes (scannedText inangaFinding) (u 0x012B ++ js "nanga") = true)
    by (vm_compute; reflexivity).
  split; [exact Hin|]. split; [exact Hinc|]. split; [|vm_compute; reflexivity].
  exact (proj1 (proj2 (species_scan_is_inclusion (sampleFindings ++ [inangaFinding])))
           inangaFinding _ Hin (or_intror eq_refl) Hinc).
Defined.

(** ** Label and council *)

(** A label resolved by auto-detect belongs to the council of that
    moment: it is that council's fallback or the name of a Region of its
    dictionary.  Changing the council afterwards leaves the label as it
    is, so a session can show the Waikato policy phrase next to a
    Hamilton area until auto-detect is run again. *)
Theorem label_is_not_updated_on_council_change :
  (forall st,
      showIcmpModal (handleAutoDetectICMP st) = false ->
      In (inferredICMP (handleAutoDetectICMP st))
         (councilFallback (council st) :: map name (dictionaryOf (council st)))) /\
  (forall v st,
      inferredICMP (handleCouncilChange v st) = inferredICMP st /\
      council (handleCouncilChange v st) = v /\
      includeHPMO (handleCouncilChange v st) = streq v HamiltonCityCouncil) /\
  (exists st,
      reachable st /\
      council st = WaikatoDistrictCouncil /\
      inferredICMP st = js "Rotokauri ICMP" /\
      ~ In (inferredICMP st)
           (councilFallback (council st) :: map name (dictionaryOf (council st))) /\
      includes (councilScope st) (js "Waikato District Plan") = true /\
      includes (councilScope st) (js "ICMP area: **Rotokauri ICMP**") = true).
Proof.
  split; [|split].
  - intros st Hclosed.
    destruct (Nat.leb (List.length (candidates (projectLocation st) (council st))) 1) eqn:E.
    + apply Nat.leb_le in E.
      destruct (handleAutoDetectICMP_resolved st E) as (-> & _ & _).
      pose proof (inferICMP_first_label (Some (projectLocation st)) (council st)) as Hhd.
      assert (Hin : In (inferICMP (Some (projectLocation st)) (council st))
                       (inferICMPMatches (Some (projectLocation st)) (council st))).
      { destruct (inferICMPMatches (Some (projectLocation st)) (council st));
          [discriminate|]. inversion Hhd. now left. }
      destruct (inferICMPMatches_labels _ _ _ Hin) as [[H _]|[-> _]];
        [right; exact H | left; reflexivity].
    + exfalso. unfold handleAutoDetectICMP in Hclosed.
      rewrite inferICMPMatches_eq in Hclosed.
      fold (candidates (projectLocation st) (council st)) in Hclosed.
      destruct (candidates (projectLocation st) (council st)) as [|a [|b cs]];
        simpl in E; try discriminate E. discriminate Hclosed.
  - intros v st. repeat split.
  - exists (handleCouncilChange WaikatoDistrictCouncil
              (handleAutoDetectICMP (setProjectLocation (js "Rotokauri") initialSession))).
    split.
    + eapply ReachStep; [eapply ReachStep; [eapply ReachStep; [apply ReachInitial|]|]|].
      * apply (StepProjectLocation (js "Rotokauri")).
      * apply StepAutoDetect.
      * apply StepCouncil. right. reflexivity.
    + split; [reflexivity|]. split; [vm_compute; reflexivity|].
      split; [apply existsb_streq_In; vm_compute; reflexivity|].
      split; vm_compute; reflexivity.
Qed.

Lemma label_is_not_updated_on_council_change_witness :
  showIcmpModal (handleAutoDetectICMP (setProjectLocation (js "Huntly") initialSession)) = false /\
  In (inferredICMP (handleAutoDetectICMP (setProjectLocation (js "Huntly") initialSession)))
     (councilFallback HamiltonCityCouncil :: map name (dictionaryOf HamiltonCityCouncil)).
Proof.
  assert (H : showIcmpModal (handleAutoDetectICMP
                               (setProjectLocation (js "Huntly") initialSession)) = false)
    by (vm_compute; reflexivity).
  split; [exact H|].
  exact (proj1 label_is_not_updated_on_council_change _ H).
Defined.
